(** * Ray-Ban BLE emulator for Flipper Zero: advertising state machine

    A shallow embedding of [flipper_ray_ban_ble/ray_ban_ble_emulator.c]:
    the device table, the advertisement payload builder, the beacon
    controller ([ble_start], [ble_stop]), the event loop of
    [ray_ban_ble_app] and the teardown in [app_free].

    Bytes and indices are [Z]; arrays are lists written by index with
    stdpp's insert; the firmware calls the program makes are recorded, in
    program order, as a list of [Call]s by a small state-and-output monad
    whose failure case stands for undefined behaviour of the C program. *)

From Stdlib Require Import ZArith String Ascii Lia.
From stdpp Require Import base list.

Open Scope Z_scope.

(** ** Firmware headers

    Types and constants that the program takes from the Flipper firmware
    ([furi_hal_bt.h], [input/input.h], [extra_beacon.h]). *)

(** Modelled from the spec: the macro [EXTRA_BEACON_MAX_DATA_SIZE] of the
    firmware's extra-beacon header is the size of a BLE legacy
    advertisement, 31 bytes. *)
Definition EXTRA_BEACON_MAX_DATA_SIZE : Z := 31.

(** Modelled from the spec: the macro [EXTRA_BEACON_MAC_ADDR_SIZE] of the
    firmware's extra-beacon header; the emulated address is a fixed 6-byte
    value. *)
Definition EXTRA_BEACON_MAC_ADDR_SIZE : Z := 6.

Inductive InputType : Set :=
  | InputTypePress
  | InputTypeRelease
  | InputTypeShort
  | InputTypeLong
  | InputTypeRepeat.

Inductive InputKey : Set :=
  | InputKeyUp
  | InputKeyDown
  | InputKeyRight
  | InputKeyLeft
  | InputKeyOk
  | InputKeyBack.

#[global] Instance InputKey_eq_dec : EqDecision InputKey.
Proof. solve_decision. Defined.

#[global] Instance InputType_eq_dec : EqDecision InputType.
Proof. solve_decision. Defined.

Record InputEvent : Set := { key : InputKey; type : InputType }.

Inductive GapAdvChannelMap : Set :=
  | GapAdvChannelMap37
  | GapAdvChannelMap38
  | GapAdvChannelMap39
  | GapAdvChannelMapAll.

Inductive GapAdvPowerLevel : Set :=
  | GapAdvPowerLevel_0dBm
  | GapAdvPowerLevel_6dBm.

Inductive GapAddressType : Set :=
  | GapAddressTypePublic
  | GapAddressTypeRandom.

Record GapExtraBeaconConfig : Set := {
  min_adv_interval_ms : Z;
  max_adv_interval_ms : Z;
  adv_channel_map : GapAdvChannelMap;
  adv_power_level : GapAdvPowerLevel;
  address_type : GapAddressType;
  address : list Z
}.

Inductive NotificationSequence : Set :=
  | sequence_blink_start_blue
  | sequence_blink_stop.

Inductive Record_ : Set :=
  | RECORD_NOTIFICATION
  | RECORD_GUI.

(** ** Device profiles *)

Record DeviceProfile : Set := {
  short_name : string;
  long_name : string;
  cid_str : string;
  cid_lo : Z;
  cid_hi : Z
}.

(** [enum DeviceIndex]: the enumerators are integer constants.  On the
    indices of the table every sum and difference the program forms stays
    within [0 .. DeviceCount], below the range of any enum type. *)
Definition DeviceIndex : Set := Z.
Definition DeviceMeta2 : DeviceIndex := 0.
Definition DeviceMeta1 : DeviceIndex := 1.
Definition DeviceLuxottica : DeviceIndex := 2.
Definition DeviceSnap : DeviceIndex := 3.
Definition DeviceCount : DeviceIndex := 4.

Definition kDevices : list DeviceProfile :=
  [ {| short_name := "Meta Tech"; long_name := "Meta Platforms Tech";
       cid_str := "0x058E"; cid_lo := 0x8E; cid_hi := 0x05 |};
    {| short_name := "Meta Inc."; long_name := "Meta Platforms, Inc.";
       cid_str := "0x01AB"; cid_lo := 0xAB; cid_hi := 0x01 |};
    {| short_name := "Luxottica"; long_name := "EssilorLuxottica";
       cid_str := "0x0D53"; cid_lo := 0x53; cid_hi := 0x0D |};
    {| short_name := "Snap Spectacles"; long_name := "Snapchat, Inc.";
       cid_str := "0x03C2"; cid_lo := 0xC2; cid_hi := 0x03 |} ].

(** The 16-bit Company ID whose little-endian bytes a profile stores. *)
Definition company_id (p : DeviceProfile) : Z :=
  Z.lor (Z.shiftl (cid_hi p) 8) (cid_lo p).

Definition kEmulatedMac : list Z := [0x5E; 0x9A; 0x3C; 0x1D; 0x87; 0x42].

(** ** App state *)

Inductive AppScreen : Set :=
  | ScreenMenu
  | ScreenAdvertising.

(** The three fields of [struct App] the program reads and writes; the
    handles ([gui], [view_port], [event_queue], [notification]) are only
    passed back to the firmware. *)
Record App : Set := {
  screen : AppScreen;
  selected : DeviceIndex;
  advertising : bool
}.

(** ** Payload builder *)

Definition u8 (z : Z) : Z := z mod 256.

(** [out[i] = v] on an array held as a list.  A store past the end, which
    C leaves undefined, would be dropped here; [build_adv_data] stores at
    the indices 0 to 8 of an array of [EXTRA_BEACON_MAX_DATA_SIZE]
    elements. *)
Definition store (out : list Z) (i : Z) (v : Z) : list Z :=
  <[Z.to_nat i := v]> out.

(** [build_adv_data(p, out)]: the array after the nine stores and the
    returned count; [i] is a [uint8_t], so [i++] is taken modulo 256. *)
Definition build_adv_data (p : DeviceProfile) (out : list Z) : list Z * Z :=
  let i := 0 in
  let out := store out i 0x02 in let i := u8 (i + 1) in
  let out := store out i 0x01 in let i := u8 (i + 1) in
  let out := store out i 0x06 in let i := u8 (i + 1) in
  let out := store out i 0x05 in let i := u8 (i + 1) in
  let out := store out i 0xFF in let i := u8 (i + 1) in
  let out := store out i (cid_lo p) in let i := u8 (i + 1) in
  let out := store out i (cid_hi p) in let i := u8 (i + 1) in
  let out := store out i 0x00 in let i := u8 (i + 1) in
  let out := store out i 0x00 in let i := u8 (i + 1) in
  (out, i).

(** The bytes the firmware reads from [data] when handed [len]. *)
Definition first_bytes (data : list Z) (len : Z) : list Z :=
  take (Z.to_nat len) data.

(** ** Firmware calls and the program monad *)

(** One constructor per firmware entry point the program calls, with the
    arguments that matter here; [Call_extra_beacon_start] also records the
    result the driver returned. *)
Inductive Call : Set :=
  | Call_extra_beacon_stop
  | Call_extra_beacon_set_data (data : list Z)
  | Call_extra_beacon_set_config (cfg : GapExtraBeaconConfig)
  | Call_extra_beacon_start (ok : bool)
  | Call_notification_message (seq : NotificationSequence)
  | Call_log_info (tag msg : string)
  | Call_view_port_update
  | Call_malloc
  | Call_message_queue_alloc (capacity : Z)
  | Call_record_open (r : Record_)
  | Call_view_port_alloc
  | Call_view_port_draw_callback_set
  | Call_view_port_input_callback_set
  | Call_gui_add_view_port
  | Call_gui_remove_view_port
  | Call_record_close (r : Record_)
  | Call_view_port_free
  | Call_message_queue_free
  | Call_free.

(** What the program can change: its [App] and the number of times it has
    asked the radio to start. *)
Record World : Set := { app : App; starts : nat }.

(** A computation maps a world to its result, the new world and the
    firmware calls it made, oldest first; [None] is undefined behaviour. *)
Definition M (A : Type) : Type := World → option (A * World * list Call).

#[global] Instance M_ret : MRet M := λ A a w, Some (a, w, []).

#[global] Instance M_bind : MBind M := λ A B k m w,
  match m w with
  | None => None
  | Some (a, w1, cs1) =>
      match k a w1 with
      | None => None
      | Some (b, w2, cs2) => Some (b, w2, cs1 ++ cs2)
      end
  end.

Definition call (c : Call) : M unit := λ w, Some ((), w, [c]).

(** An empty statement. *)
Definition skip : M unit := mret ().

Definition undefined_behaviour {A : Type} : M A := λ _, None.

Definition get_app : M App := λ w, Some (app w, w, []).

Definition put_app (a : App) : M unit :=
  λ w, Some ((), {| app := a; starts := starts w |}, []).

(** [app->screen = s], [app->selected = i], [app->advertising = b]. *)
Definition set_screen (s : AppScreen) : M unit :=
  a ← get_app;
  put_app {| screen := s; selected := selected a; advertising := advertising a |}.

Definition set_selected (i : DeviceIndex) : M unit :=
  a ← get_app;
  put_app {| screen := screen a; selected := i; advertising := advertising a |}.

Definition set_advertising (b : bool) : M unit :=
  a ← get_app;
  put_app {| screen := screen a; selected := selected a; advertising := b |}.

(** [arr[i]] read through a pointer: outside the array it is undefined. *)
Definition index {A : Type} (arr : list A) (i : Z) : M A :=
  if 0 <=? i then
    match arr !! Z.to_nat i with
    | Some x => mret x
    | None => undefined_behaviour
    end
  else undefined_behaviour.

(** [memcpy(dst, src, n)] on arrays held as lists. *)
Definition memcpy (dst src : list Z) (n : Z) : list Z :=
  take (Z.to_nat n) src ++ drop (Z.to_nat n) dst.

Definition TAG : string := "RayBanBLE".

Definition furi_hal_bt_extra_beacon_stop : M unit :=
  call Call_extra_beacon_stop.

Definition furi_hal_bt_extra_beacon_set_data (data : list Z) (len : Z) : M unit :=
  call (Call_extra_beacon_set_data (first_bytes data len)).

Definition furi_hal_bt_extra_beacon_set_config (cfg : GapExtraBeaconConfig) : M unit :=
  call (Call_extra_beacon_set_config cfg).

Definition notification_message (seq : NotificationSequence) : M unit :=
  call (Call_notification_message seq).

Definition FURI_LOG_I (tag msg : string) : M unit :=
  call (Call_log_info tag msg).

Definition view_port_update : M unit := call Call_view_port_update.

Section Emulator.

(** [radio n] is what [furi_hal_bt_extra_beacon_start] returns the
    [n]-th time it is called (counting from 0); [stack] is whatever bytes
    an automatic array finds in its storage. *)
Variable radio : nat → bool.
Variable stack : list Z.

Definition furi_hal_bt_extra_beacon_start : M bool :=
  λ w, let ok := radio (starts w) in
       Some (ok, {| app := app w; starts := S (starts w) |},
             [Call_extra_beacon_start ok]).

(** An automatic [uint8_t] array of [n] elements without initialiser. *)
Definition automatic_array (n : Z) : list Z := resize (Z.to_nat n) 0 stack.

(** ** Beacon controller *)

Definition ble_start : M unit :=
  a ← get_app;
  (* p = &kDevices[app->selected], read below through p->cid_lo and others *)
  p ← index kDevices (selected a);
  (* Stop any running beacon first *)
  furi_hal_bt_extra_beacon_stop;;
  (* Set advertisement data *)
  let adv_data := automatic_array EXTRA_BEACON_MAX_DATA_SIZE in
  let built := build_adv_data p adv_data in
  let adv_data := built.1 in
  let adv_len := built.2 in
  furi_hal_bt_extra_beacon_set_data adv_data adv_len;;
  (* Configure beacon *)
  let cfg := {| min_adv_interval_ms := 100;
                max_adv_interval_ms := 200;
                adv_channel_map := GapAdvChannelMapAll;
                adv_power_level := GapAdvPowerLevel_6dBm;
                address_type := GapAddressTypeRandom;
                address := memcpy (replicate (Z.to_nat EXTRA_BEACON_MAC_ADDR_SIZE) 0)
                                  kEmulatedMac EXTRA_BEACON_MAC_ADDR_SIZE |} in
  furi_hal_bt_extra_beacon_set_config cfg;;
  ok ← furi_hal_bt_extra_beacon_start;
  set_advertising ok;;
  FURI_LOG_I TAG
    ("BLE beacon " ++ (if ok then "started" else "FAILED") ++ " - "
     ++ long_name p ++ " (" ++ cid_str p ++ ")")%string;;
  if ok : bool then notification_message sequence_blink_start_blue else skip.

Definition ble_stop : M unit :=
  furi_hal_bt_extra_beacon_stop;;
  set_advertising false;;
  notification_message sequence_blink_stop;;
  FURI_LOG_I TAG "BLE beacon stopped".

(** ** Application lifecycle *)

Definition app_alloc : M unit :=
  call Call_malloc;;
  set_screen ScreenMenu;;
  set_selected DeviceMeta2;;
  set_advertising false;;
  call (Call_message_queue_alloc 8);;
  call (Call_record_open RECORD_NOTIFICATION);;
  call Call_view_port_alloc;;
  call Call_view_port_draw_callback_set;;
  call Call_view_port_input_callback_set;;
  call (Call_record_open RECORD_GUI);;
  call Call_gui_add_view_port.

(** The calls of [app_free] after its first statement. *)
Definition release_resources : M unit :=
  call Call_gui_remove_view_port;;
  call (Call_record_close RECORD_GUI);;
  call Call_view_port_free;;
  call (Call_record_close RECORD_NOTIFICATION);;
  call Call_message_queue_free;;
  call Call_free.

Definition app_free : M unit :=
  a ← get_app;
  (if advertising a then ble_stop else skip);;
  release_resources.

(** ** Entry point *)

(** One pass through the body of [while(running)]: [msg] is what
    [furi_message_queue_get] delivered ([None] when it did not return
    [FuriStatusOk]); the result is the value of [running] afterwards. *)
Definition loop_body (msg : option InputEvent) : M bool :=
  match msg with
  | None => view_port_update;; mret true
  | Some event =>
      match type event with
      | InputTypePress | InputTypeRepeat =>
          a ← get_app;
          running ←
            match screen a with
            | ScreenMenu =>
                match key event with
                | InputKeyUp =>
                    set_selected (if selected a =? 0 then DeviceCount - 1
                                  else selected a - 1);;
                    mret true
                | InputKeyDown =>
                    set_selected ((selected a + 1) mod DeviceCount);;
                    mret true
                | InputKeyOk =>
                    ble_start;;
                    a' ← get_app;
                    (if advertising a' then set_screen ScreenAdvertising
                     else skip);;
                    mret true
                | InputKeyBack => mret false
                | _ => mret true
                end
            | ScreenAdvertising =>
                match key event with
                | InputKeyBack =>
                    ble_stop;;
                    set_screen ScreenMenu;;
                    mret true
                | _ => mret true
                end
            end;
          view_port_update;;
          mret running
      | _ => mret true
      end
  end.

(** The loop over the messages the queue delivers; with the messages used
    up and [running] still true the program is waiting for the next one. *)
Fixpoint event_loop (queue : list (option InputEvent)) : M bool :=
  match queue with
  | [] => mret true
  | msg :: queue =>
      running ← loop_body msg;
      if running : bool then event_loop queue else mret false
  end.

(** [ray_ban_ble_app]: [Some 0] once it has returned, [None] while it
    still waits in the loop. *)
Definition ray_ban_ble_app (queue : list (option InputEvent)) : M (option Z) :=
  app_alloc;;
  running ← event_loop queue;
  if running : bool then mret None
  else app_free;; mret (Some 0).

(** The worlds at the top of the loop, with the value of [running]. *)
Inductive reachable : bool → World → Prop :=
  | reach_alloc (w0 w : World) (cs : list Call) :
      app_alloc w0 = Some ((), w, cs) → reachable true w
  | reach_iter (w w' : World) (msg : option InputEvent) (running : bool)
      (cs : list Call) :
      reachable true w →
      loop_body msg w = Some (running, w', cs) →
      reachable running w'.

End Emulator.

(** ** Reading a list of firmware calls *)

(** Whether the beacon transmits after the calls [cs], given whether it did
    before: a stop request ends it, a start request sets it to the
    driver's answer. *)
Fixpoint beacon_live (live : bool) (cs : list Call) : bool :=
  match cs with
  | [] => live
  | Call_extra_beacon_stop :: cs => beacon_live false cs
  | Call_extra_beacon_start ok :: cs => beacon_live ok cs
  | _ :: cs => beacon_live live cs
  end.

(** Whether every load of data or configuration in [cs] finds the beacon
    stopped. *)
Fixpoint reconfigures_stopped (live : bool) (cs : list Call) : bool :=
  match cs with
  | [] => true
  | Call_extra_beacon_stop :: cs => reconfigures_stopped false cs
  | Call_extra_beacon_start ok :: cs => reconfigures_stopped ok cs
  | Call_extra_beacon_set_data _ :: cs
  | Call_extra_beacon_set_config _ :: cs => negb live && reconfigures_stopped live cs
  | _ :: cs => reconfigures_stopped live cs
  end.

Definition is_stop (c : Call) : bool :=
  match c with Call_extra_beacon_stop => true | _ => false end.

(** The number of stop requests among the calls. *)
Definition stop_requests (cs : list Call) : nat := length (filter is_stop cs).

(** The bytes of the advertisement for a profile, as the program comments
    list them. *)
Definition adv_payload (p : DeviceProfile) : list Z :=
  [0x02; 0x01; 0x06; 0x05; 0xFF; cid_lo p; cid_hi p; 0x00; 0x00].

(** The configuration [ble_start] hands to the driver. *)
Definition beacon_config : GapExtraBeaconConfig :=
  {| min_adv_interval_ms := 100;
     max_adv_interval_ms := 200;
     adv_channel_map := GapAdvChannelMapAll;
     adv_power_level := GapAdvPowerLevel_6dBm;
     address_type := GapAddressTypeRandom;
     address := kEmulatedMac |}.

(** Both of the top two bits of a byte. *)
Definition top_two_bits_set (b : Z) : bool := Z.testbit b 7 && Z.testbit b 6.

Definition valid_index (i : DeviceIndex) : Prop := 0 <= i < DeviceCount.

(** The log line of [ble_start]. *)
Definition start_message (ok : bool) (p : DeviceProfile) : string :=
  ("BLE beacon " ++ (if ok then "started" else "FAILED") ++ " - "
   ++ long_name p ++ " (" ++ cid_str p ++ ")")%string.

(** The calls of one [ble_start] for profile [p] when the driver answers
    [ok], and the calls of one [ble_stop]. *)
Definition ble_start_calls (ok : bool) (p : DeviceProfile) : list Call :=
  [ Call_extra_beacon_stop;
    Call_extra_beacon_set_data (adv_payload p);
    Call_extra_beacon_set_config beacon_config;
    Call_extra_beacon_start ok;
    Call_log_info TAG (start_message ok p) ]
  ++ (if ok then [Call_notification_message sequence_blink_start_blue] else []).

Definition ble_stop_calls : list Call :=
  [ Call_extra_beacon_stop;
    Call_notification_message sequence_blink_stop;
    Call_log_info TAG "BLE beacon stopped" ].

Definition release_calls : list Call :=
  [ Call_gui_remove_view_port;
    Call_record_close RECORD_GUI;
    Call_view_port_free;
    Call_record_close RECORD_NOTIFICATION;
    Call_message_queue_free;
    Call_free ].

Definition with_advertising (a : App) (b : bool) : App :=
  {| screen := screen a; selected := selected a; advertising := b |}.

Definition press (k : InputKey) : option InputEvent :=
  Some {| key := k; type := InputTypePress |}.

(** The state [app_alloc] sets up. *)
Definition initial_app : App :=
  {| screen := ScreenMenu; selected := DeviceMeta2; advertising := false |}.

(** What holds at the top of the loop: the index is one of the table, and
    the screen agrees with the recorded beacon state. *)
Definition consistent (a : App) : Prop :=
  valid_index (selected a)
  ∧ (screen a = ScreenAdvertising ↔ advertising a = true).

(** The world with the menu on screen and [i] selected. *)
Definition menu_at (i : DeviceIndex) (b : bool) (n : nat) : World :=
  {| app := {| screen := ScreenMenu; selected := i; advertising := b |};
     starts := n |}.

(** A world as [app_alloc] leaves it, the radio not yet asked to start. *)
Definition fresh : World := {| app := initial_app; starts := 0 |}.

Definition alloc_calls : list Call :=
  [ Call_malloc;
    Call_message_queue_alloc 8;
    Call_record_open RECORD_NOTIFICATION;
    Call_view_port_alloc;
    Call_view_port_draw_callback_set;
    Call_view_port_input_callback_set;
    Call_record_open RECORD_GUI;
    Call_gui_add_view_port ].

(** The event types the loop acts on. *)
Definition acted_on (t : InputType) : Prop :=
  t = InputTypePress ∨ t = InputTypeRepeat.

Definition is_set_data (c : Call) : bool :=
  match c with Call_extra_beacon_set_data _ => true | _ => false end.

Definition is_radio_call (c : Call) : bool :=
  match c with
  | Call_extra_beacon_stop
  | Call_extra_beacon_set_data _
  | Call_extra_beacon_set_config _
  | Call_extra_beacon_start _ => true
  | _ => false
  end.

(** The calls [cs] of a step from [a] to [a']: data and configuration are
    only loaded into a stopped beacon, and the beacon transmits afterwards
    exactly when [advertising] says so, if it did before. *)
Definition tracks_beacon (a a' : App) (cs : list Call) : Prop :=
  (∀ live, reconfigures_stopped live cs = true)
  ∧ beacon_live (advertising a) cs = advertising a'.

(** The configurations handed to the driver among the calls. *)
Definition configurations (cs : list Call) : list GapExtraBeaconConfig :=
  omap (λ c, match c with
             | Call_extra_beacon_set_config cfg => Some cfg
             | _ => None
             end) cs.

(** ** Drawing *)

(** The canvas calls of [draw_callback], from [gui/canvas.h]. *)
Inductive Color : Set :=
  | ColorWhite
  | ColorBlack
  | ColorXOR.

Inductive Font : Set :=
  | FontPrimary
  | FontSecondary
  | FontKeyboard
  | FontBigNumbers.

Inductive Draw : Set :=
  | canvas_clear
  | canvas_set_color (c : Color)
  | canvas_set_font (f : Font)
  | canvas_draw_str (x y : Z) (s : string)
  | canvas_draw_line (x1 y1 x2 y2 : Z)
  | canvas_draw_box (x y width height : Z)
  | canvas_draw_disc (x y r : Z).

(** [snprintf(buf, size, ...)] keeps at most [size - 1] characters of the
    formatted text. *)
Definition snprintf (size : nat) (formatted : string) : string :=
  substring 0 (size - 1) formatted.

Definition hex_digit (d : Z) : Ascii.ascii :=
  match String.get (Z.to_nat d) "0123456789ABCDEF" with
  | Some c => c
  | None => "?"%char
  end.

(** [%02X] of a [uint8_t] argument: two upper-case hexadecimal digits. *)
Definition fmt_02X (b : Z) : string :=
  String (hex_digit (b / 16)) (String (hex_digit (b mod 16)) EmptyString).

(** The body of the [for] loop of the menu for one [i]. *)
Definition draw_row (a : App) (i : Z) : option (list Draw) :=
  p ← kDevices !! Z.to_nat i;
  let y := u8 (24 + i * 10) in
  if i =? selected a then
    Some [ canvas_draw_box 0 (y - 8) 128 10;
           canvas_set_color ColorWhite;
           canvas_draw_str 4 y ">";
           canvas_draw_str 12 y (short_name p);
           canvas_draw_str 80 y (cid_str p);
           canvas_set_color ColorBlack ]
  else
    Some [ canvas_draw_str 12 y (short_name p);
           canvas_draw_str 80 y (cid_str p) ].

(** [draw_callback]: the canvas calls for a state of the app, oldest
    first; [None] is a read outside [kDevices]. *)
Definition draw_callback (a : App) : option (list Draw) :=
  match screen a with
  | ScreenMenu =>
      rows ← mapM (draw_row a) (seqZ 0 DeviceCount);
      Some ([ canvas_clear;
              canvas_set_color ColorBlack;
              canvas_set_font FontPrimary;
              canvas_draw_str 2 10 "Ray-Ban BLE Emulator";
              canvas_draw_line 0 12 128 12;
              canvas_set_font FontSecondary ]
            ++ concat rows
            ++ [ canvas_draw_line 0 54 128 54;
                 canvas_set_font FontSecondary;
                 canvas_draw_str 2 63 "[Ok] Advertise  [Bk] Exit" ])
  | ScreenAdvertising =>
      p ← (if 0 <=? selected a then kDevices !! Z.to_nat (selected a) else None);
      m0 ← kEmulatedMac !! 0%nat;
      m1 ← kEmulatedMac !! 1%nat;
      m2 ← kEmulatedMac !! 2%nat;
      m3 ← kEmulatedMac !! 3%nat;
      m4 ← kEmulatedMac !! 4%nat;
      m5 ← kEmulatedMac !! 5%nat;
      let company := snprintf 32 ("Company ID: " ++ cid_str p)%string in
      let mac :=
        snprintf 32
          ("MAC: " ++ fmt_02X m0 ++ ":" ++ fmt_02X m1 ++ ":" ++ fmt_02X m2
           ++ ":" ++ fmt_02X m3 ++ ":" ++ fmt_02X m4 ++ ":" ++ fmt_02X m5)%string in
      Some [ canvas_clear;
             canvas_set_color ColorBlack;
             canvas_set_font FontPrimary;
             canvas_draw_str 2 10 "Broadcasting...";
             canvas_draw_disc 122 6 4;
             canvas_draw_line 0 12 128 12;
             canvas_set_font FontSecondary;
             canvas_draw_str 2 24 (long_name p);
             canvas_draw_str 2 34 company;
             canvas_draw_str 2 44 mac;
             canvas_draw_str 2 54 "100-200ms  +6dBm  All Ch";
             canvas_draw_line 0 56 128 56;
             canvas_draw_str 2 64 "[Back] Stop" ]
  end.

(** ** Reading the drawing and the advertisement *)

(** The text drawn, in order. *)
Definition drawn_text (ds : list Draw) : list string :=
  omap (λ d, match d with canvas_draw_str _ _ s => Some s | _ => None end) ds.

(** The text drawn at column [x], each with its row. *)
Definition texts_at (x : Z) (ds : list Draw) : list (Z * string) :=
  omap (λ d, match d with
             | canvas_draw_str x' y s => if x' =? x then Some (y, s) else None
             | _ => None
             end) ds.

(** The boxes drawn, as their top row. *)
Definition drawn_boxes (ds : list Draw) : list Z :=
  omap (λ d, match d with canvas_draw_box _ y _ _ => Some y | _ => None end) ds.

(** The colour the canvas is left with after the calls, from [c]. *)
Definition colour_after (c : Color) (ds : list Draw) : Color :=
  foldl (λ c d, match d with canvas_set_color c' => c' | _ => c end) c ds.

(** The advertising-data elements of a payload as a receiver reads them:
    a length byte, then that many bytes, the first of them the type. *)
Fixpoint ad_elements (fuel : nat) (bytes : list Z) : option (list (Z * list Z)) :=
  match bytes with
  | [] => Some []
  | len :: rest =>
      match fuel, rest with
      | S fuel, ty :: body =>
          if (1 <=? len) && (Z.to_nat len <=? length rest)%nat then
            els ← ad_elements fuel (drop (Z.to_nat len - 1) body);
            Some ((ty, take (Z.to_nat len - 1) body) :: els)
          else None
      | _, _ => None
      end
  end.

Definition parse_adv (bytes : list Z) : option (list (Z * list Z)) :=
  ad_elements (length bytes) bytes.

(** The Company ID a receiver takes from the first manufacturer-specific
    element: its first two bytes as a little-endian 16-bit number, as the
    comment of [build_adv_data] describes. *)
Fixpoint manufacturer_company_id (els : list (Z * list Z)) : option Z :=
  match els with
  | [] => None
  | (ty, d0 :: d1 :: _) :: els =>
      if ty =? 0xFF then Some (d0 + 256 * d1) else manufacturer_company_id els
  | _ :: els => manufacturer_company_id els
  end.

(** The release that undoes an acquisition of [app_alloc], and the calls
    that release. *)
Definition released_by (c : Call) : option Call :=
  match c with
  | Call_malloc => Some Call_free
  | Call_message_queue_alloc _ => Some Call_message_queue_free
  | Call_record_open r => Some (Call_record_close r)
  | Call_view_port_alloc => Some Call_view_port_free
  | Call_gui_add_view_port => Some Call_gui_remove_view_port
  | _ => None
  end.

Definition releases (cs : list Call) : list Call :=
  omap (λ c, match c with
             | Call_free | Call_message_queue_free | Call_record_close _
             | Call_view_port_free | Call_gui_remove_view_port => Some c
             | _ => None
             end) cs.

(** ** The passes of the loop as a relation *)

Section Passes.

Variable radio : nat → bool.

(** [pass w msg running w' cs]: the cases of one pass through the loop
    body, read off its branches. *)
Inductive pass : World → option InputEvent → bool → World → list Call → Prop :=
  | pass_timeout (w : World) :
      pass w None true w [Call_view_port_update]
  | pass_other_type (k : InputKey) (t : InputType) (w : World) :
      ¬ acted_on t →
      pass w (Some {| key := k; type := t |}) true w []
  | pass_up (t : InputType) (i : DeviceIndex) (b : bool) (n : nat) :
      acted_on t →
      pass (menu_at i b n) (Some {| key := InputKeyUp; type := t |}) true
           (menu_at (if i =? 0 then DeviceCount - 1 else i - 1) b n)
           [Call_view_port_update]
  | pass_down (t : InputType) (i : DeviceIndex) (b : bool) (n : nat) :
      acted_on t →
      pass (menu_at i b n) (Some {| key := InputKeyDown; type := t |}) true
           (menu_at ((i + 1) mod DeviceCount) b n)
           [Call_view_port_update]
  | pass_side (k : InputKey) (t : InputType) (w : World) :
      acted_on t →
      k = InputKeyLeft ∨ k = InputKeyRight →
      screen (app w) = ScreenMenu →
      pass w (Some {| key := k; type := t |}) true w [Call_view_port_update]
  | pass_ok (t : InputType) (w : World) (p : DeviceProfile) :
      acted_on t →
      screen (app w) = ScreenMenu →
      0 <= selected (app w) →
      kDevices !! Z.to_nat (selected (app w)) = Some p →
      pass w (Some {| key := InputKeyOk; type := t |}) true
           {| app := {| screen := if radio (starts w) then ScreenAdvertising
                                  else ScreenMenu;
                        selected := selected (app w);
                        advertising := radio (starts w) |};
              starts := S (starts w) |}
           (ble_start_calls (radio (starts w)) p ++ [Call_view_port_update])
  | pass_exit (t : InputType) (w : World) :
      acted_on t →
      screen (app w) = ScreenMenu →
      pass w (Some {| key := InputKeyBack; type := t |}) false w
           [Call_view_port_update]
  | pass_stop (t : InputType) (w : World) :
      acted_on t →
      screen (app w) = ScreenAdvertising →
      pass w (Some {| key := InputKeyBack; type := t |}) true
           {| app := {| screen := ScreenMenu; selected := selected (app w);
                        advertising := false |};
              starts := starts w |}
           (ble_stop_calls ++ [Call_view_port_update])
  | pass_advertising_other (k : InputKey) (t : InputType) (w : World) :
      acted_on t →
      k ≠ InputKeyBack →
      screen (app w) = ScreenAdvertising →
      pass w (Some {| key := k; type := t |}) true w [Call_view_port_update].

End Passes.

(** The calls the loop itself can make. *)
Definition is_loop_call (c : Call) : bool :=
  match c with
  | Call_extra_beacon_stop
  | Call_extra_beacon_set_data _
  | Call_extra_beacon_set_config _
  | Call_extra_beacon_start _
  | Call_notification_message _
  | Call_log_info _ _
  | Call_view_port_update => true
  | _ => false
  end.

(** A radio call whose argument comes from the tables of the program: the
    data is the payload of a profile of [kDevices], the configuration is
    [beacon_config]. *)
Definition from_table (c : Call) : Prop :=
  match c with
  | Call_extra_beacon_set_data d => ∃ p, p ∈ kDevices ∧ d = adv_payload p
  | Call_extra_beacon_set_config cfg => cfg = beacon_config
  | _ => True
  end.

(** [k] presses of Down, one after the other. *)
Definition downs (k : nat) : list (option InputEvent) :=
  replicate k (press InputKeyDown).

(** ** Properties of the payload builder *)

Lemma build_adv_data_count (p : DeviceProfile) (out : list Z) :
  (build_adv_data p out).2 = 9.
Proof. reflexivity. Qed.

Lemma build_adv_data_bytes (p : DeviceProfile) (out : list Z) :
  (9 <= length out)%nat →
  first_bytes (build_adv_data p out).1 (build_adv_data p out).2
  = [0x02; 0x01; 0x06; 0x05; 0xFF; cid_lo p; cid_hi p; 0x00; 0x00].
Proof.
  intros Hlen.
  do 9 (destruct out as [|? out]; [simpl in Hlen; lia|]).
  reflexivity.
Qed.

Lemma kDevices_bytes (p : DeviceProfile) :
  p ∈ kDevices → 0 <= cid_lo p < 256 ∧ 0 <= cid_hi p < 256.
Proof.
  unfold kDevices. rewrite !elem_of_cons, elem_of_nil.
  intros [-> | [-> | [-> | [-> | []]]]]; simpl; lia.
Qed.

Lemma company_id_bytes (p : DeviceProfile) :
  p ∈ kDevices →
  Z.land (company_id p) 0xFF = cid_lo p
  ∧ Z.shiftr (company_id p) 8 = cid_hi p.
Proof.
  unfold kDevices. rewrite !elem_of_cons, elem_of_nil.
  intros [-> | [-> | [-> | [-> | []]]]]; now vm_compute.
Qed.

(** C1.  For every profile of the device table, [build_adv_data] returns
    9, and the 9 bytes it wrote (into any 31-byte array) are
    02 01 06 05 FF, the low byte of the profile's Company ID, its high
    byte, 00 00: a Flags element of length 2, type 01, value 06, followed
    by a Manufacturer-Specific-Data element of length 5, type FF, the
    Company ID little-endian and two zero placeholder bytes. *)
Theorem build_adv_data_payload (p : DeviceProfile) (out : list Z) :
  p ∈ kDevices →
  length out = Z.to_nat EXTRA_BEACON_MAX_DATA_SIZE →
  (build_adv_data p out).2 = 9
  ∧ length (first_bytes (build_adv_data p out).1 (build_adv_data p out).2) = 9%nat
  ∧ first_bytes (build_adv_data p out).1 (build_adv_data p out).2
    = [0x02; 0x01; 0x06; 0x05; 0xFF;
       Z.land (company_id p) 0xFF; Z.shiftr (company_id p) 8;
       0x00; 0x00].
Proof.
  intros Hp Hlen.
  destruct (company_id_bytes p Hp) as [-> ->].
  assert (Hb := build_adv_data_bytes p out).
  rewrite Hb by (rewrite Hlen; vm_compute; lia).
  auto.
Qed.

(** ** Properties of the beacon controller *)

Arguments build_adv_data : simpl never.
Arguments first_bytes : simpl never.

Section Controller.

Variable radio : nat → bool.
Variable stack : list Z.

Lemma automatic_array_length (n : Z) :
  length (automatic_array stack n) = Z.to_nat n.
Proof. apply length_resize. Qed.

Lemma valid_index_lookup (i : DeviceIndex) :
  valid_index i → ∃ p, kDevices !! Z.to_nat i = Some p ∧ p ∈ kDevices.
Proof.
  unfold valid_index, DeviceCount. intros Hi.
  assert (i = 0 ∨ i = 1 ∨ i = 2 ∨ i = 3) as [-> | [-> | [-> | ->]]] by lia;
    (eexists; split; [reflexivity |]);
    unfold kDevices; rewrite !elem_of_cons; auto 10.
Qed.

Lemma beacon_config_address :
  memcpy (replicate (Z.to_nat EXTRA_BEACON_MAC_ADDR_SIZE) 0) kEmulatedMac
         EXTRA_BEACON_MAC_ADDR_SIZE = kEmulatedMac.
Proof. reflexivity. Qed.

Lemma ble_start_run (w : World) (p : DeviceProfile) :
  0 <= selected (app w) →
  kDevices !! Z.to_nat (selected (app w)) = Some p →
  ble_start radio stack w
  = Some ((), {| app := with_advertising (app w) (radio (starts w));
                 starts := S (starts w) |},
          ble_start_calls (radio (starts w)) p).
Proof.
  intros Hi Hp.
  assert (Hb := build_adv_data_bytes p
                  (automatic_array stack EXTRA_BEACON_MAX_DATA_SIZE)).
  rewrite automatic_array_length in Hb. specialize (Hb ltac:(vm_compute; lia)).
  unfold ble_start, index, mbind, M_bind, get_app.
  apply Z.leb_le in Hi. rewrite Hi, Hp.
  cbv beta iota zeta delta [mret M_ret].
  revert Hb.
  generalize (build_adv_data p (automatic_array stack EXTRA_BEACON_MAX_DATA_SIZE)).
  intros built Hb. simpl. rewrite Hb.
  destruct (radio (starts w)); reflexivity.
Qed.

End Controller.

Lemma ble_stop_run (w : World) :
  ble_stop w
  = Some ((), {| app := with_advertising (app w) false; starts := starts w |},
          ble_stop_calls).
Proof. reflexivity. Qed.

Lemma app_alloc_run (w0 : World) :
  app_alloc w0
  = Some ((), {| app := initial_app; starts := starts w0 |}, alloc_calls).
Proof. reflexivity. Qed.

Lemma with_advertising_same (a : App) (b : bool) :
  advertising a = b → with_advertising a b = a.
Proof. destruct a; simpl; intros ->; reflexivity. Qed.

(** ** The event loop, case by case *)

Section Loop.

Variable radio : nat → bool.
Variable stack : list Z.

Ltac enter_loop_body :=
  unfold loop_body;
  cbv beta iota zeta delta [mbind M_bind mret M_ret get_app key type].

Lemma loop_body_timeout (w : World) :
  loop_body radio stack None w = Some (true, w, [Call_view_port_update]).
Proof. reflexivity. Qed.

Lemma loop_body_other_type (k : InputKey) (t : InputType) (w : World) :
  ¬ acted_on t →
  loop_body radio stack (Some {| key := k; type := t |}) w = Some (true, w, []).
Proof.
  unfold acted_on. intros Ht.
  destruct t; try reflexivity; exfalso; apply Ht; auto.
Qed.

Lemma loop_body_menu_up (t : InputType) (i : DeviceIndex) (b : bool) (n : nat) :
  acted_on t →
  loop_body radio stack (Some {| key := InputKeyUp; type := t |}) (menu_at i b n)
  = Some (true,
          menu_at (if i =? 0 then DeviceCount - 1 else i - 1) b n,
          [Call_view_port_update]).
Proof. intros [-> | ->]; reflexivity. Qed.

Lemma loop_body_menu_down (t : InputType) (i : DeviceIndex) (b : bool) (n : nat) :
  acted_on t →
  loop_body radio stack (Some {| key := InputKeyDown; type := t |}) (menu_at i b n)
  = Some (true, menu_at ((i + 1) mod DeviceCount) b n, [Call_view_port_update]).
Proof. intros [-> | ->]; reflexivity. Qed.

Lemma loop_body_menu_ok (t : InputType) (w : World) (p : DeviceProfile) :
  acted_on t →
  screen (app w) = ScreenMenu →
  0 <= selected (app w) →
  kDevices !! Z.to_nat (selected (app w)) = Some p →
  loop_body radio stack (Some {| key := InputKeyOk; type := t |}) w
  = Some (true,
          {| app := {| screen := if radio (starts w) then ScreenAdvertising
                                 else ScreenMenu;
                       selected := selected (app w);
                       advertising := radio (starts w) |};
             starts := S (starts w) |},
          ble_start_calls (radio (starts w)) p ++ [Call_view_port_update]).
Proof.
  intros Ht Hs Hi Hp.
  assert (Hrun := ble_start_run radio stack w p Hi Hp).
  destruct Ht as [-> | ->]; enter_loop_body; rewrite Hs, Hrun;
    destruct (radio (starts w)); unfold with_advertising; simpl; rewrite ?Hs; reflexivity.
Qed.

Lemma loop_body_menu_back (t : InputType) (w : World) :
  acted_on t →
  screen (app w) = ScreenMenu →
  loop_body radio stack (Some {| key := InputKeyBack; type := t |}) w
  = Some (false, w, [Call_view_port_update]).
Proof.
  intros Ht Hs.
  destruct Ht as [-> | ->]; enter_loop_body; rewrite Hs; reflexivity.
Qed.

Lemma loop_body_menu_side (k : InputKey) (t : InputType) (w : World) :
  k = InputKeyLeft ∨ k = InputKeyRight →
  screen (app w) = ScreenMenu →
  loop_body radio stack (Some {| key := k; type := t |}) w
  = Some (true, w, if t is (InputTypePress | InputTypeRepeat)
                   then [Call_view_port_update] else []).
Proof.
  intros Hk Hs.
  destruct Hk as [-> | ->]; destruct t; try reflexivity;
    enter_loop_body; rewrite Hs; reflexivity.
Qed.

Lemma loop_body_advertising_back (t : InputType) (w : World) :
  acted_on t →
  screen (app w) = ScreenAdvertising →
  loop_body radio stack (Some {| key := InputKeyBack; type := t |}) w
  = Some (true,
          {| app := {| screen := ScreenMenu; selected := selected (app w);
                       advertising := false |};
             starts := starts w |},
          ble_stop_calls ++ [Call_view_port_update]).
Proof.
  intros Ht Hs.
  destruct Ht as [-> | ->]; enter_loop_body; rewrite Hs; reflexivity.
Qed.

Lemma loop_body_advertising_other (k : InputKey) (t : InputType) (w : World) :
  k ≠ InputKeyBack →
  screen (app w) = ScreenAdvertising →
  loop_body radio stack (Some {| key := k; type := t |}) w
  = Some (true, w, if t is (InputTypePress | InputTypeRepeat)
                   then [Call_view_port_update] else []).
Proof.
  intros Hk Hs.
  destruct k; try congruence; destruct t; try reflexivity;
    enter_loop_body; rewrite Hs; reflexivity.
Qed.

Lemma acted_on_dec (t : InputType) : {acted_on t} + {¬ acted_on t}.
Proof.
  unfold acted_on.
  destruct t; first [ left; auto; fail | right; intros [H | H]; discriminate ].
Qed.

Lemma up_valid (i : DeviceIndex) :
  valid_index i → valid_index (if i =? 0 then DeviceCount - 1 else i - 1).
Proof.
  unfold valid_index, DeviceCount. intros Hi.
  destruct (Z.eqb_spec i 0); lia.
Qed.

Lemma down_valid (i : DeviceIndex) :
  valid_index i → valid_index ((i + 1) mod DeviceCount).
Proof.
  unfold valid_index, DeviceCount. intros _. apply Z.mod_pos_bound. lia.
Qed.

Lemma tracks_beacon_redraw (a : App) :
  tracks_beacon a a [Call_view_port_update].
Proof. split; reflexivity. Qed.

Lemma tracks_beacon_nil (a : App) : tracks_beacon a a [].
Proof. split; reflexivity. Qed.

Lemma tracks_beacon_moved (s : AppScreen) (i j : DeviceIndex) (b : bool) :
  tracks_beacon {| screen := s; selected := i; advertising := b |}
                {| screen := s; selected := j; advertising := b |}
                [Call_view_port_update].
Proof. split; reflexivity. Qed.

(** From a consistent state every pass through the loop body is defined
    and ends in a consistent state, and its calls keep to the beacon
    discipline. *)
Lemma loop_body_consistent (msg : option InputEvent) (w : World) :
  consistent (app w) →
  ∃ running w' cs,
    loop_body radio stack msg w = Some (running, w', cs)
    ∧ consistent (app w')
    ∧ tracks_beacon (app w) (app w') cs.
Proof.
  intros Hc.
  destruct msg as [[k t]|];
    [|rewrite loop_body_timeout; eauto 8 using tracks_beacon_redraw].
  destruct (acted_on_dec t) as [Ht | Ht];
    [|rewrite loop_body_other_type by done; eauto 8 using tracks_beacon_nil].
  destruct Hc as [Hi Hsa].
  destruct (screen (app w)) eqn:Hs.
  - destruct k.
    + destruct w as [[s i b] n]; simpl in Hs, Hi, Hsa; subst s.
      assert (Hrun := loop_body_menu_up t i b n Ht).
      unfold menu_at in Hrun. rewrite Hrun.
      eexists _, _, _; split; [reflexivity|].
      split; [split; [apply up_valid, Hi | exact Hsa]|].
      apply tracks_beacon_moved.
    + destruct w as [[s i b] n]; simpl in Hs, Hi, Hsa; subst s.
      assert (Hrun := loop_body_menu_down t i b n Ht).
      unfold menu_at in Hrun. rewrite Hrun.
      eexists _, _, _; split; [reflexivity|].
      split; [split; [apply down_valid, Hi | exact Hsa]|].
      apply tracks_beacon_moved.
    + rewrite loop_body_menu_side by auto.
      eexists _, _, _; split; [reflexivity|].
      split; [split; [done | by rewrite Hs]|].
      destruct Ht as [-> | ->]; apply tracks_beacon_redraw.
    + rewrite loop_body_menu_side by auto.
      eexists _, _, _; split; [reflexivity|].
      split; [split; [done | by rewrite Hs]|].
      destruct Ht as [-> | ->]; apply tracks_beacon_redraw.
    + destruct (valid_index_lookup _ Hi) as (p & Hp & _).
      rewrite (loop_body_menu_ok t w p Ht Hs (proj1 Hi) Hp).
      eexists _, _, _; split; [reflexivity|].
      split; [split; [exact Hi|]|].
      * simpl. destruct (radio (starts w)); split; congruence.
      * split; [intros live|]; simpl;
          destruct (radio (starts w)); try destruct live; reflexivity.
    + rewrite loop_body_menu_back by done.
      eexists _, _, _; split; [reflexivity|].
      split; [split; [done | by rewrite Hs]|].
      apply tracks_beacon_redraw.
  - destruct (decide (k = InputKeyBack)) as [-> | Hk].
    + rewrite loop_body_advertising_back by done.
      eexists _, _, _; split; [reflexivity|].
      split; [split; [exact Hi|]|].
      * simpl. split; congruence.
      * split; [intros live|]; reflexivity.
    + rewrite loop_body_advertising_other by done.
      eexists _, _, _; split; [reflexivity|].
      split; [split; [done | by rewrite Hs]|].
      destruct Ht as [-> | ->]; apply tracks_beacon_redraw.
Qed.

Lemma reachable_consistent (running : bool) (w : World) :
  reachable radio stack running w → consistent (app w).
Proof.
  induction 1 as [w0 w cs Halloc | w w' msg running cs _ IH Hstep].
  - rewrite app_alloc_run in Halloc. injection Halloc as <- _.
    split; [unfold valid_index; simpl; unfold DeviceMeta2, DeviceCount; lia|].
    simpl. split; congruence.
  - destruct (loop_body_consistent msg w IH) as (r & w1 & cs1 & Heq & Hc & _).
    rewrite Heq in Hstep. by injection Hstep as _ <- _.
Qed.

(** No pass through the loop body from a reached state is undefined: the
    selected index is always one of the table. *)
Lemma reachable_step_defined (w : World) (msg : option InputEvent) :
  reachable radio stack true w →
  ∃ running w' cs,
    loop_body radio stack msg w = Some (running, w', cs)
    ∧ reachable radio stack running w'.
Proof.
  intros Hreach.
  destruct (loop_body_consistent msg w (reachable_consistent _ _ Hreach))
    as (running & w' & cs & Hstep & _).
  exists running, w', cs. split; [exact Hstep|].
  exact (reach_iter _ _ w w' msg running cs Hreach Hstep).
Qed.

End Loop.

(** ** The input state machine *)

Section StateMachine.

Variable radio : nat → bool.
Variable stack : list Z.

(** C10.  An input event whose type is neither press nor repeat leaves the
    whole state as it was (screen, selected index, advertising flag and
    the count of start requests) and makes no firmware call at all, so
    neither [ble_start] nor [ble_stop] runs; the loop goes on. *)
Theorem other_event_types_ignored (event : InputEvent) (w : World) :
  type event ≠ InputTypePress →
  type event ≠ InputTypeRepeat →
  loop_body radio stack (Some event) w = Some (true, w, []).
Proof.
  intros Hp Hr. destruct event as [k t]. simpl in Hp, Hr.
  apply loop_body_other_type. intros [-> | ->]; congruence.
Qed.

(** C7.  [ble_stop] is defined in every state and leaves [advertising]
    false; when [advertising] was already false the state after it is the
    state before it. *)
Theorem ble_stop_leaves_idle (w : World) :
  ∃ w',
    ble_stop w = Some ((), w', ble_stop_calls)
    ∧ advertising (app w') = false
    ∧ (advertising (app w) = false → w' = w).
Proof.
  eexists. split; [apply ble_stop_run|]. split; [reflexivity|].
  intros Hidle. destruct w as [a n]. simpl in Hidle |- *.
  by rewrite with_advertising_same.
Qed.

(** C6.  On the menu screen Up from index 0 selects [DeviceCount - 1], Down
    from [DeviceCount - 1] selects 0, Up and Down move the index by one
    modulo [DeviceCount], and from every index of the table Up then Down,
    and Down then Up, come back to it. *)
Theorem selection_cycles (t : InputType) (i : DeviceIndex) (b : bool) (n : nat) :
  acted_on t →
  valid_index i →
  let up := loop_body radio stack (Some {| key := InputKeyUp; type := t |}) in
  let down := loop_body radio stack (Some {| key := InputKeyDown; type := t |}) in
  let redraw := [Call_view_port_update] in
  up (menu_at 0 b n) = Some (true, menu_at (DeviceCount - 1) b n, redraw)
  ∧ down (menu_at (DeviceCount - 1) b n) = Some (true, menu_at 0 b n, redraw)
  ∧ up (menu_at i b n) = Some (true, menu_at ((i - 1) mod DeviceCount) b n, redraw)
  ∧ down (menu_at i b n) = Some (true, menu_at ((i + 1) mod DeviceCount) b n, redraw)
  ∧ (up ≫= λ _, down) (menu_at i b n)
    = Some (true, menu_at i b n, redraw ++ redraw)
  ∧ (down ≫= λ _, up) (menu_at i b n)
    = Some (true, menu_at i b n, redraw ++ redraw).
Proof.
  intros Ht Hi up down redraw. subst up down redraw.
  unfold mbind, M_bind.
  rewrite !loop_body_menu_up, !loop_body_menu_down by exact Ht.
  cbv beta iota.
  rewrite ?loop_body_menu_up, ?loop_body_menu_down by exact Ht.
  unfold valid_index, DeviceCount in *.
  assert (i = 0 ∨ i = 1 ∨ i = 2 ∨ i = 3) as [-> | [-> | [-> | ->]]] by lia;
    repeat split; reflexivity.
Qed.

(** C4.  On the menu screen an Ok event runs [ble_start]; the screen
    afterwards is the advertising screen if and only if the driver's start
    request succeeded, and [advertising] is that answer.  When it failed
    the screen is still the menu and [advertising] is false. *)
Theorem confirm_advertises_iff_start_succeeds (t : InputType) (w : World) :
  acted_on t →
  screen (app w) = ScreenMenu →
  valid_index (selected (app w)) →
  ∃ p w',
    kDevices !! Z.to_nat (selected (app w)) = Some p
    ∧ loop_body radio stack (Some {| key := InputKeyOk; type := t |}) w
      = Some (true, w',
              ble_start_calls (radio (starts w)) p ++ [Call_view_port_update])
    ∧ (screen (app w') = ScreenAdvertising ↔ radio (starts w) = true)
    ∧ advertising (app w') = radio (starts w)
    ∧ (radio (starts w) = false →
       screen (app w') = ScreenMenu ∧ advertising (app w') = false).
Proof.
  intros Ht Hs Hi.
  destruct (valid_index_lookup _ Hi) as (p & Hp & _).
  eexists p, _. split; [exact Hp|].
  split; [apply (loop_body_menu_ok radio stack t w p Ht Hs (proj1 Hi) Hp)|].
  simpl. destruct (radio (starts w)); repeat split; congruence.
Qed.

(** C9.  In every state the loop reaches from the state [app_alloc] sets
    up (menu screen, index 0, not advertising), if the screen is the
    advertising screen then [advertising] is true. *)
Theorem advertising_screen_implies_advertising (running : bool) (w : World) :
  reachable radio stack running w →
  screen (app w) = ScreenAdvertising →
  advertising (app w) = true.
Proof.
  intros Hreach Hs.
  apply reachable_consistent in Hreach as [_ Hsa]. by apply Hsa.
Qed.

End StateMachine.

(** ** The beacon controller and whole runs *)

Lemma bind_run {A B : Type} (m : M A) (k : A → M B) (w w1 : World) (a : A)
    (cs1 : list Call) :
  m w = Some (a, w1, cs1) →
  (m ≫= k) w
  = match k a w1 with
    | None => None
    | Some (b, w2, cs2) => Some (b, w2, cs1 ++ cs2)
    end.
Proof. unfold mbind, M_bind. intros ->. reflexivity. Qed.

Lemma beacon_live_app (live : bool) (cs1 cs2 : list Call) :
  beacon_live live (cs1 ++ cs2) = beacon_live (beacon_live live cs1) cs2.
Proof.
  revert live. induction cs1 as [|c cs1 IH]; intros live; [reflexivity|].
  destruct c; simpl; apply IH.
Qed.

Lemma reconfigures_stopped_app (live : bool) (cs1 cs2 : list Call) :
  reconfigures_stopped live (cs1 ++ cs2)
  = reconfigures_stopped live cs1
    && reconfigures_stopped (beacon_live live cs1) cs2.
Proof.
  revert live. induction cs1 as [|c cs1 IH]; intros live; [reflexivity|].
  destruct c; simpl; rewrite ?IH; try reflexivity;
    destruct live; reflexivity.
Qed.

Lemma tracks_beacon_app (a1 a2 a3 : App) (cs1 cs2 : list Call) :
  tracks_beacon a1 a2 cs1 → tracks_beacon a2 a3 cs2 →
  tracks_beacon a1 a3 (cs1 ++ cs2).
Proof.
  intros [Hq1 Hl1] [Hq2 Hl2]. split.
  - intros live. by rewrite reconfigures_stopped_app, Hq1, Hq2.
  - by rewrite beacon_live_app, Hl1.
Qed.

Section Runs.

Variable radio : nat → bool.
Variable stack : list Z.

Ltac run_with H := rewrite (bind_run _ _ _ _ _ _ H); cbv beta iota.

(** The loop only ends on the menu screen, and that pass changes nothing. *)
Lemma loop_body_exit (msg : option InputEvent) (w w' : World) (cs : list Call) :
  loop_body radio stack msg w = Some (false, w', cs) →
  screen (app w) = ScreenMenu ∧ w' = w.
Proof.
  destruct msg as [[k t]|]; [|discriminate].
  unfold loop_body.
  cbv beta iota zeta delta [mbind M_bind mret M_ret get_app key type].
  destruct t; try discriminate;
    (destruct (screen (app w)) eqn:Hs; destruct k; try discriminate;
     try (destruct (ble_start radio stack w) as [[[[] w1] cs1]|];
          [|discriminate]; simpl; destruct (advertising (app w1));
          discriminate));
    intros [= <- _]; done.
Qed.

(** The loop is defined on every queue of messages, keeps the state
    consistent and keeps to the beacon discipline. *)
Lemma event_loop_consistent (queue : list (option InputEvent)) (w : World) :
  consistent (app w) →
  ∃ running w' cs,
    event_loop radio stack queue w = Some (running, w', cs)
    ∧ consistent (app w')
    ∧ tracks_beacon (app w) (app w') cs.
Proof.
  revert w. induction queue as [|msg queue IH]; intros w Hc.
  - exists true, w, []. split; [reflexivity|]. split; [exact Hc|].
    apply tracks_beacon_nil.
  - destruct (loop_body_consistent radio stack msg w Hc)
      as (r & w1 & cs1 & Hstep & Hc1 & Ht1).
    simpl. run_with Hstep. destruct r.
    + destruct (IH w1 Hc1) as (r2 & w2 & cs2 & Hrest & Hc2 & Ht2).
      rewrite Hrest. eexists _, _, _; split; [reflexivity|].
      eauto using tracks_beacon_app.
    + eexists _, _, _; split; [reflexivity|].
      rewrite app_nil_r. by split.
Qed.

Lemma app_free_run (w : World) :
  app_free w
  = Some ((),
          (if advertising (app w)
           then {| app := with_advertising (app w) false; starts := starts w |}
           else w),
          (if advertising (app w) then ble_stop_calls else []) ++ release_calls).
Proof.
  unfold app_free, mbind, M_bind, get_app. cbv beta iota.
  destruct (advertising (app w)); reflexivity.
Qed.

(** Every run of the program is defined, loads data and configuration
    only into a stopped beacon, and once it has returned the beacon it
    started is stopped. *)
Lemma program_beacon_discipline (queue : list (option InputEvent)) (w0 : World) :
  ∃ r w cs,
    ray_ban_ble_app radio stack queue w0 = Some (r, w, cs)
    ∧ (∀ live, reconfigures_stopped live cs = true)
    ∧ (r = Some 0 → beacon_live false cs = false).
Proof.
  unfold ray_ban_ble_app. run_with (app_alloc_run w0).
  set (w1 := {| app := initial_app; starts := starts w0 |}).
  assert (Hc : consistent (app w1)).
  { split; [unfold valid_index; simpl; unfold DeviceMeta2, DeviceCount; lia|].
    simpl. split; congruence. }
  destruct (event_loop_consistent queue w1 Hc)
    as (running & w2 & cs & Hloop & Hc2 & Hq & Hl).
  run_with Hloop. destruct running.
  - eexists _, _, _; split; [reflexivity|]. split; [|discriminate].
    intros live. rewrite app_nil_r, reconfigures_stopped_app, Hq. reflexivity.
  - run_with (app_free_run w2).
    eexists _, _, _; split; [reflexivity|]. split.
    + intros live.
      rewrite !reconfigures_stopped_app, Hq.
      destruct (advertising (app w2)); reflexivity.
    + intros _. rewrite !beacon_live_app.
      change (beacon_live false alloc_calls) with (advertising (app w1)).
      rewrite Hl. destruct (advertising (app w2)); reflexivity.
Qed.

(** C2.  From the state [app_alloc] sets up, Down, Down, Ok selects index
    2, the Luxottica profile with Company ID 0x0D53; the one payload handed
    to the driver is 02 01 06 05 FF 53 0D 00 00; when the start request
    succeeds the screen is the advertising screen; a Back event then makes
    one stop request and leaves the menu screen with [advertising] false. *)
Theorem luxottica_end_to_end (w0 : World) :
  radio (starts w0) = true →
  ∃ p w1 cs1 w2 cs2,
    (app_alloc ≫= λ _,
       event_loop radio stack
         [press InputKeyDown; press InputKeyDown; press InputKeyOk]) w0
    = Some (true, w1, cs1)
    ∧ selected (app w1) = DeviceLuxottica
    ∧ kDevices !! Z.to_nat (selected (app w1)) = Some p
    ∧ company_id p = 0x0D53
    ∧ filter is_set_data cs1
      = [Call_extra_beacon_set_data
           [0x02; 0x01; 0x06; 0x05; 0xFF; 0x53; 0x0D; 0x00; 0x00]]
    ∧ screen (app w1) = ScreenAdvertising
    ∧ advertising (app w1) = true
    ∧ loop_body radio stack (press InputKeyBack) w1 = Some (true, w2, cs2)
    ∧ stop_requests cs2 = 1%nat
    ∧ screen (app w2) = ScreenMenu
    ∧ advertising (app w2) = false.
Proof.
  intros Hok. set (n := starts w0) in *.
  assert (Hacted : acted_on InputTypePress) by (left; reflexivity).
  assert (H1 : loop_body radio stack (press InputKeyDown) (menu_at 0 false n)
               = Some (true, menu_at 1 false n, [Call_view_port_update]))
    by reflexivity.
  assert (H2 : loop_body radio stack (press InputKeyDown) (menu_at 1 false n)
               = Some (true, menu_at 2 false n, [Call_view_port_update]))
    by reflexivity.
  destruct (kDevices !! Z.to_nat 2) as [p|] eqn:Hp; [|discriminate].
  assert (H3 := loop_body_menu_ok radio stack InputTypePress
                  (menu_at 2 false n) p Hacted eq_refl ltac:(simpl; lia) Hp).
  simpl in H3. rewrite Hok in H3.
  injection Hp as <-.
  eexists _, _, _, _, _. split.
  { run_with (app_alloc_run w0).
    change {| app := initial_app; starts := starts w0 |} with (menu_at 0 false n).
    unfold event_loop.
    run_with H1. run_with H2. run_with H3. reflexivity. }
  split; [reflexivity|]. split; [reflexivity|]. split; [reflexivity|].
  split; [reflexivity|]. split; [reflexivity|]. split; [reflexivity|].
  split; [by apply loop_body_advertising_back|].
  repeat split.
Qed.

(** C3.  Every [ble_start] makes, in this order, a stop request, the load
    of the advertisement data, the load of the configuration and the start
    request, and after them no further radio call.  So in [ble_start]
    followed at once by [ble_start] the stop request of the second comes
    between the start request of the first and the second load: whether
    or not a beacon was running before, data and configuration are only
    ever loaded into a stopped beacon. *)
Theorem ble_start_stops_before_reconfiguring (w : World) :
  valid_index (selected (app w)) →
  ∃ p w1 w2 rest1 rest2,
    let first :=
      [ Call_extra_beacon_stop;
        Call_extra_beacon_set_data (adv_payload p);
        Call_extra_beacon_set_config beacon_config;
        Call_extra_beacon_start (radio (starts w)) ] ++ rest1 in
    let second :=
      [ Call_extra_beacon_stop;
        Call_extra_beacon_set_data (adv_payload p);
        Call_extra_beacon_set_config beacon_config;
        Call_extra_beacon_start (radio (S (starts w))) ] ++ rest2 in
    kDevices !! Z.to_nat (selected (app w)) = Some p
    ∧ ble_start radio stack w = Some ((), w1, first)
    ∧ (ble_start radio stack ≫= λ _, ble_start radio stack) w
      = Some ((), w2, first ++ second)
    ∧ filter is_radio_call rest1 = []
    ∧ filter is_radio_call rest2 = []
    ∧ ∀ live,
        reconfigures_stopped live first = true
        ∧ reconfigures_stopped live (first ++ second) = true.
Proof.
  intros Hi.
  destruct (valid_index_lookup _ Hi) as (p & Hp & _).
  assert (Hrun1 := ble_start_run radio stack w p (proj1 Hi) Hp).
  set (w1 := {| app := with_advertising (app w) (radio (starts w));
                starts := S (starts w) |}) in *.
  assert (Hrun2 := ble_start_run radio stack w1 p (proj1 Hi) Hp).
  simpl in Hrun2.
  exists p, w1. eexists.
  exists (drop 4 (ble_start_calls (radio (starts w)) p)).
  exists (drop 4 (ble_start_calls (radio (S (starts w))) p)).
  cbv zeta. split; [exact Hp|]. split; [exact Hrun1|]. split.
  { run_with Hrun1. rewrite Hrun2. reflexivity. }
  split; [destruct (radio (starts w)); reflexivity|].
  split; [destruct (radio (S (starts w))); reflexivity|].
  intros live.
  destruct (radio (starts w)), (radio (S (starts w))), live; split; reflexivity.
Qed.

(** C5, as the program has it.  [app_free] asks the radio to stop exactly
    when [advertising] is true: then [ble_stop] runs first, its stop
    request is the only one and comes before every release of a resource,
    and [advertising] is false afterwards; when [advertising] is false
    [app_free] makes no stop request. *)
Theorem app_free_stops_iff_advertising (w : World) :
  ∃ w',
    app_free w
    = Some ((), w',
            (if advertising (app w) then ble_stop_calls else []) ++ release_calls)
    ∧ stop_requests
        ((if advertising (app w) then ble_stop_calls else []) ++ release_calls)
      = (if advertising (app w) then 1 else 0)%nat
    ∧ stop_requests release_calls = 0%nat
    ∧ head ble_stop_calls = Some Call_extra_beacon_stop
    ∧ advertising (app w') = false.
Proof.
  eexists. split; [apply app_free_run|].
  split; [destruct (advertising (app w)); reflexivity|].
  split; [reflexivity|]. split; [reflexivity|].
  destruct (advertising (app w)) eqn:Ha; [reflexivity | exact Ha].
Qed.

End Runs.

(** ** The emulated address *)

(** C8, at the table the program has.  Every [ble_start] configures the
    address type random and the six bytes of [kEmulatedMac], which never
    change; but no byte of [kEmulatedMac] has both of its top two bits
    set: the last byte 0x42 and the first byte 0x5E both start with the
    bits 01. *)
Theorem emulated_mac_top_bits :
  length kEmulatedMac = Z.to_nat EXTRA_BEACON_MAC_ADDR_SIZE
  ∧ address_type beacon_config = GapAddressTypeRandom
  ∧ address beacon_config = kEmulatedMac
  ∧ (∀ radio stack, ∃ w cs,
       ble_start radio stack fresh = Some ((), w, cs)
       ∧ configurations cs = [beacon_config])
  ∧ forallb (λ b, negb (top_two_bits_set b)) kEmulatedMac = true
  ∧ (Z.testbit 0x42 7, Z.testbit 0x42 6) = (false, true)
  ∧ (Z.testbit 0x5E 7, Z.testbit 0x5E 6) = (false, true).
Proof.
  split; [reflexivity|]. split; [reflexivity|]. split; [reflexivity|].
  split; [|repeat split].
  intros radio stack.
  destruct (kDevices !! Z.to_nat (selected (app fresh))) as [p|] eqn:Hp;
    [|discriminate].
  eexists _, _. split.
  - apply (ble_start_run radio stack fresh p); [simpl; reflexivity | exact Hp].
  - injection Hp as <-. destruct (radio (starts fresh)); reflexivity.
Qed.

(** ** The statements at concrete inputs *)

(** The Luxottica profile written into a zeroed 31-byte array. *)
Lemma build_adv_data_payload_luxottica :
  let p := {| short_name := "Luxottica"; long_name := "EssilorLuxottica";
              cid_str := "0x0D53"; cid_lo := 0x53; cid_hi := 0x0D |} in
  let out := replicate 31 0 in
  p ∈ kDevices
  ∧ length out = Z.to_nat EXTRA_BEACON_MAX_DATA_SIZE
  ∧ (build_adv_data p out).2 = 9
  ∧ first_bytes (build_adv_data p out).1 (build_adv_data p out).2
    = [0x02; 0x01; 0x06; 0x05; 0xFF; 0x53; 0x0D; 0x00; 0x00].
Proof.
  intros p out.
  assert (Hp : p ∈ kDevices)
    by (do 2 apply list_elem_of_further; apply list_elem_of_here).
  assert (Hlen : length out = Z.to_nat EXTRA_BEACON_MAX_DATA_SIZE)
    by reflexivity.
  destruct (build_adv_data_payload p out Hp Hlen) as (Hcount & _ & Hbytes).
  split; [exact Hp|]. split; [exact Hlen|]. split; [exact Hcount|].
  exact Hbytes.
Defined.

(** The scenario of C2 with a radio that always starts. *)
Lemma luxottica_end_to_end_always_on :
  (λ _ : nat, true) (starts fresh) = true
  ∧ ∃ w1 cs1 w2 cs2,
      (app_alloc ≫= λ _,
         event_loop (λ _, true) []
           [press InputKeyDown; press InputKeyDown; press InputKeyOk]) fresh
      = Some (true, w1, cs1)
      ∧ screen (app w1) = ScreenAdvertising
      ∧ loop_body (λ _, true) [] (press InputKeyBack) w1 = Some (true, w2, cs2)
      ∧ screen (app w2) = ScreenMenu
      ∧ advertising (app w2) = false.
Proof.
  assert (Hok : (λ _ : nat, true) (starts fresh) = true) by reflexivity.
  split; [exact Hok|].
  destruct (luxottica_end_to_end (λ _, true) [] fresh Hok)
    as (p & w1 & cs1 & w2 & cs2 & Hrun & _ & _ & _ & _ & Hs1 & _ & Hback & _
        & Hs2 & Ha2).
  exists w1, cs1, w2, cs2. auto.
Defined.

(** Two starts in a row from the fresh state, the radio always starting. *)
Lemma ble_start_twice_from_fresh :
  valid_index (selected (app fresh))
  ∧ ∃ w2 cs,
      (ble_start (λ _, true) [] ≫= λ _, ble_start (λ _, true) []) fresh
      = Some ((), w2, cs)
      ∧ reconfigures_stopped true cs = true.
Proof.
  assert (Hi : valid_index (selected (app fresh))) by (vm_compute; split; congruence).
  split; [exact Hi|].
  destruct (ble_start_stops_before_reconfiguring (λ _, true) [] fresh Hi)
    as (p & w1 & w2 & rest1 & rest2 & _ & _ & Hrun & _ & _ & Hquiet).
  eexists _, _. split; [exact Hrun|]. apply Hquiet.
Defined.

(** Ok on the menu of the fresh state with a radio that refuses. *)
Lemma confirm_with_radio_refusing :
  acted_on InputTypePress
  ∧ screen (app fresh) = ScreenMenu
  ∧ valid_index (selected (app fresh))
  ∧ ∃ w' cs,
      loop_body (λ _, false) [] (press InputKeyOk) fresh = Some (true, w', cs)
      ∧ screen (app w') = ScreenMenu
      ∧ advertising (app w') = false.
Proof.
  assert (Ht : acted_on InputTypePress) by (left; reflexivity).
  assert (Hs : screen (app fresh) = ScreenMenu) by reflexivity.
  assert (Hi : valid_index (selected (app fresh))) by (vm_compute; split; congruence).
  split; [exact Ht|]. split; [exact Hs|]. split; [exact Hi|].
  destruct (confirm_advertises_iff_start_succeeds (λ _, false) []
              InputTypePress fresh Ht Hs Hi)
    as (p & w' & _ & Hrun & _ & _ & Hfail).
  eexists _, _. split; [exact Hrun|]. apply Hfail. reflexivity.
Defined.

(** Down from the last index of the table, and back. *)
Lemma selection_cycles_from_last :
  acted_on InputTypeRepeat
  ∧ valid_index DeviceSnap
  ∧ loop_body (λ _, true) [] (Some {| key := InputKeyDown; type := InputTypeRepeat |})
      (menu_at DeviceSnap false 0)
    = Some (true, menu_at ((DeviceSnap + 1) mod DeviceCount) false 0,
            [Call_view_port_update])
  ∧ (DeviceSnap + 1) mod DeviceCount = DeviceMeta2.
Proof.
  assert (Ht : acted_on InputTypeRepeat) by (right; reflexivity).
  assert (Hi : valid_index DeviceSnap) by (vm_compute; split; congruence).
  split; [exact Ht|]. split; [exact Hi|].
  destruct (selection_cycles (λ _, true) [] InputTypeRepeat DeviceSnap false 0 Ht Hi)
    as (_ & _ & _ & Hdown & _).
  split; [exact Hdown | reflexivity].
Defined.

(** [ble_stop] on the fresh state, where no beacon runs. *)
Lemma ble_stop_on_fresh :
  advertising (app fresh) = false
  ∧ ble_stop fresh = Some ((), fresh, ble_stop_calls).
Proof.
  assert (Hidle : advertising (app fresh) = false) by reflexivity.
  split; [exact Hidle|].
  destruct (ble_stop_leaves_idle fresh) as (w' & Hrun & _ & Hsame).
  rewrite <- (Hsame Hidle) at 2. exact Hrun.
Defined.

(** The state after a successful Ok is reached, and shows the advertising
    screen. *)
Lemma advertising_screen_after_ok :
  let w := {| app := {| screen := ScreenAdvertising; selected := DeviceMeta2;
                        advertising := true |};
              starts := 1 |} in
  reachable (λ _, true) [] true w
  ∧ screen (app w) = ScreenAdvertising
  ∧ advertising (app w) = true.
Proof.
  intros w.
  assert (Hreach : reachable (λ _, true) [] true w).
  { eapply (reach_iter _ _ fresh w (press InputKeyOk)).
    - eapply (reach_alloc _ _ fresh). reflexivity.
    - vm_compute. reflexivity. }
  assert (Hs : screen (app w) = ScreenAdvertising) by reflexivity.
  split; [exact Hreach|]. split; [exact Hs|].
  exact (advertising_screen_implies_advertising (λ _, true) [] true w Hreach Hs).
Defined.

(** A release of the Ok key while advertising. *)
Lemma release_event_ignored :
  let event := {| key := InputKeyOk; type := InputTypeRelease |} in
  let w := {| app := {| screen := ScreenAdvertising; selected := DeviceSnap;
                        advertising := true |};
              starts := 1 |} in
  type event ≠ InputTypePress
  ∧ type event ≠ InputTypeRepeat
  ∧ loop_body (λ _, true) [] (Some event) w = Some (true, w, []).
Proof.
  intros event w.
  assert (Hp : type event ≠ InputTypePress) by discriminate.
  assert (Hr : type event ≠ InputTypeRepeat) by discriminate.
  split; [exact Hp|]. split; [exact Hr|].
  exact (other_event_types_ignored (λ _, true) [] event w Hp Hr).
Defined.

(** Against C5 as stated: leaving from the menu, where [advertising] is
    false, [app_free] releases every resource and makes no stop request;
    so does the whole run of the program on a single Back press. *)
Lemma teardown_without_stop_request :
  advertising (app fresh) = false
  ∧ app_free fresh = Some ((), fresh, release_calls)
  ∧ stop_requests release_calls = 0%nat
  ∧ ray_ban_ble_app (λ _, true) [] [press InputKeyBack] fresh
    = Some (Some 0, fresh,
            alloc_calls ++ [Call_view_port_update] ++ release_calls)
  ∧ stop_requests (alloc_calls ++ [Call_view_port_update] ++ release_calls)
    = 0%nat.
Proof. repeat split. Qed.

(** ** More on the payload builder *)

(** X1.  [build_adv_data] writes the first nine elements of its array and
    nothing else: the array keeps its length, every element from index 9
    on keeps its value, the nine bytes written do not depend on what the
    array held before, and the count returned fits the array. *)
Theorem build_adv_data_frame (p : DeviceProfile) (out out' : list Z) :
  (9 <= length out)%nat →
  (9 <= length out')%nat →
  length (build_adv_data p out).1 = length out
  ∧ drop 9 (build_adv_data p out).1 = drop 9 out
  ∧ take 9 (build_adv_data p out).1 = take 9 (build_adv_data p out').1
  ∧ (build_adv_data p out).2 <= EXTRA_BEACON_MAX_DATA_SIZE.
Proof.
  intros Hlen Hlen'.
  do 9 (destruct out as [|? out]; [simpl in Hlen; lia|]).
  do 9 (destruct out' as [|? out']; [simpl in Hlen'; lia|]).
  repeat split. vm_compute. discriminate.
Qed.

Lemma build_adv_data_frame_sample :
  (9 <= length (seqZ 100 12))%nat
  ∧ (9 <= length (replicate 9 0%Z))%nat
  ∧ drop 9 (build_adv_data (Build_DeviceProfile "a" "b" "c" 1 2) (seqZ 100 12)).1
    = [109; 110; 111].
Proof.
  assert (H1 : (9 <= length (seqZ 100 12))%nat) by (vm_compute; lia).
  assert (H2 : (9 <= length (replicate 9 0%Z))%nat) by (vm_compute; lia).
  split; [exact H1|]. split; [exact H2|].
  destruct (build_adv_data_frame (Build_DeviceProfile "a" "b" "c" 1 2)
              (seqZ 100 12) (replicate 9 0) H1 H2) as (_ & Hdrop & _).
  rewrite Hdrop. reflexivity.
Defined.

Lemma company_id_sum (p : DeviceProfile) :
  0 <= cid_lo p < 256 →
  0 <= cid_hi p < 256 →
  company_id p = cid_lo p + 256 * cid_hi p.
Proof.
  intros Hlo Hhi. unfold company_id.
  assert (Hdisj : Z.land (Z.shiftl (cid_hi p) 8) (cid_lo p) = 0).
  { apply Z.bits_inj'. intros n Hn.
    rewrite Z.land_spec, Z.bits_0.
    destruct (Z.lt_ge_cases n 8) as [Hlow | Hhigh].
    - rewrite Z.shiftl_spec_low by exact Hlow. reflexivity.
    - destruct (Z.eq_dec (cid_lo p) 0) as [-> | Hne];
        [rewrite Z.bits_0; apply andb_false_r|].
      rewrite (Z.bits_above_log2 (cid_lo p) n); [apply andb_false_r | lia |].
      apply Z.lt_le_trans with 8; [|exact Hhigh].
      apply Z.log2_lt_pow2; lia. }
  rewrite <- Z.lxor_lor by exact Hdisj.
  rewrite <- Z.add_nocarry_lxor by exact Hdisj.
  rewrite Z.shiftl_mul_pow2 by lia. change (2 ^ 8) with 256. lia.
Qed.

(** X2.  Read back as a receiver reads it, the payload of a profile whose
    two Company ID fields are bytes is exactly two advertising-data
    elements, Flags [06] and Manufacturer Specific Data, using up all nine
    bytes, and the Company ID taken from the second is the profile's. *)
Theorem payload_reads_back (p : DeviceProfile) (out : list Z) :
  0 <= cid_lo p < 256 →
  0 <= cid_hi p < 256 →
  (9 <= length out)%nat →
  let payload := first_bytes (build_adv_data p out).1 (build_adv_data p out).2 in
  parse_adv payload
  = Some [(0x01, [0x06]); (0xFF, [cid_lo p; cid_hi p; 0x00; 0x00])]
  ∧ (parse_adv payload ≫= manufacturer_company_id) = Some (company_id p).
Proof.
  intros Hlo Hhi Hlen payload. subst payload.
  rewrite build_adv_data_bytes by exact Hlen.
  split; [reflexivity|].
  change (Some (cid_lo p + 256 * cid_hi p) = Some (company_id p)).
  f_equal. symmetry. apply company_id_sum; assumption.
Qed.

Lemma payload_reads_back_snap :
  let p := {| short_name := "Snap Spectacles"; long_name := "Snapchat, Inc.";
              cid_str := "0x03C2"; cid_lo := 0xC2; cid_hi := 0x03 |} in
  0 <= cid_lo p < 256
  ∧ 0 <= cid_hi p < 256
  ∧ (9 <= length (replicate 31 7%Z))%nat
  ∧ (parse_adv (first_bytes (build_adv_data p (replicate 31 7)).1
                            (build_adv_data p (replicate 31 7)).2)
     ≫= manufacturer_company_id) = Some 0x03C2.
Proof.
  intros p.
  assert (Hlo : 0 <= cid_lo p < 256) by (simpl; lia).
  assert (Hhi : 0 <= cid_hi p < 256) by (simpl; lia).
  assert (Hlen : (9 <= length (replicate 31 7%Z))%nat) by (vm_compute; lia).
  split; [exact Hlo|]. split; [exact Hhi|]. split; [exact Hlen|].
  destruct (payload_reads_back p (replicate 31 7) Hlo Hhi Hlen) as [_ Hid].
  exact Hid.
Defined.

(** X3.  The payload tells the profiles of the table apart: two profiles
    of the table with the same payload are the same profile. *)
Theorem payload_identifies_profile (p q : DeviceProfile) (out out' : list Z) :
  p ∈ kDevices →
  q ∈ kDevices →
  (9 <= length out)%nat →
  (9 <= length out')%nat →
  first_bytes (build_adv_data p out).1 (build_adv_data p out).2
  = first_bytes (build_adv_data q out').1 (build_adv_data q out').2 →
  p = q.
Proof.
  intros Hp Hq Hlen Hlen'.
  rewrite !build_adv_data_bytes by assumption.
  intros [= Hlo Hhi]. revert Hp Hq Hlo Hhi.
  unfold kDevices. rewrite !elem_of_cons, !elem_of_nil.
  intros [-> | [-> | [-> | [-> | []]]]] [-> | [-> | [-> | [-> | []]]]];
    simpl; intros; first [reflexivity | discriminate].
Qed.

Lemma payload_identifies_profile_sample :
  let p := {| short_name := "Meta Inc."; long_name := "Meta Platforms, Inc.";
              cid_str := "0x01AB"; cid_lo := 0xAB; cid_hi := 0x01 |} in
  p ∈ kDevices
  ∧ (9 <= length (replicate 31 0%Z))%nat
  ∧ (9 <= length (replicate 31 1%Z))%nat
  ∧ first_bytes (build_adv_data p (replicate 31 0)).1
                (build_adv_data p (replicate 31 0)).2
    = first_bytes (build_adv_data p (replicate 31 1)).1
                  (build_adv_data p (replicate 31 1)).2
  ∧ p = p.
Proof.
  intros p.
  assert (Hp : p ∈ kDevices)
    by (apply list_elem_of_further, list_elem_of_here).
  assert (H0 : (9 <= length (replicate 31 0%Z))%nat) by (vm_compute; lia).
  assert (H1 : (9 <= length (replicate 31 1%Z))%nat) by (vm_compute; lia).
  assert (Heq : first_bytes (build_adv_data p (replicate 31 0)).1
                            (build_adv_data p (replicate 31 0)).2
                = first_bytes (build_adv_data p (replicate 31 1)).1
                              (build_adv_data p (replicate 31 1)).2)
    by reflexivity.
  split; [exact Hp|]. split; [exact H0|]. split; [exact H1|].
  split; [exact Heq|].
  exact (payload_identifies_profile p p _ _ Hp Hp H0 H1 Heq).
Defined.

(** ** The loop body and its cases *)

Lemma valid_index_iff_lookup (i : DeviceIndex) :
  valid_index i ↔ 0 <= i ∧ ∃ p, kDevices !! Z.to_nat i = Some p.
Proof.
  split.
  - intros Hi. destruct (valid_index_lookup i Hi) as (p & Hp & _).
    split; [apply Hi | eauto].
  - intros [H0 [p Hp]]. apply lookup_lt_Some in Hp.
    unfold valid_index, DeviceCount. simpl in Hp. lia.
Qed.

Section Cases.

Variable radio : nat → bool.
Variable stack : list Z.

(** [ble_start] is undefined exactly when the selected index is outside
    the table. *)
Lemma ble_start_undefined (w : World) :
  ¬ valid_index (selected (app w)) → ble_start radio stack w = None.
Proof.
  intros Hbad. unfold ble_start, index, mbind, M_bind, get_app.
  destruct (0 <=? selected (app w)) eqn:H0; [|reflexivity].
  destruct (kDevices !! Z.to_nat (selected (app w))) as [p|] eqn:Hp;
    [|reflexivity].
  exfalso. apply Hbad, valid_index_iff_lookup.
  split; [by apply Z.leb_le | eauto].
Qed.

Lemma pass_sound (msg : option InputEvent) (w w' : World) (running : bool)
    (cs : list Call) :
  pass radio w msg running w' cs →
  loop_body radio stack msg w = Some (running, w', cs).
Proof.
  intros Hpass. destruct Hpass.
  - apply loop_body_timeout.
  - by apply loop_body_other_type.
  - by apply loop_body_menu_up.
  - by apply loop_body_menu_down.
  - rewrite loop_body_menu_side by assumption.
    by match goal with H : acted_on _ |- _ => destruct H as [-> | ->] end.
  - by apply loop_body_menu_ok.
  - by apply loop_body_menu_back.
  - by apply loop_body_advertising_back.
  - rewrite loop_body_advertising_other by assumption.
    by match goal with H : acted_on _ |- _ => destruct H as [-> | ->] end.
Qed.

(** Every pass is one of the cases, or Ok on the menu with an index outside
    the table, which is undefined. *)
Lemma pass_or_undefined (msg : option InputEvent) (w : World) :
  (∃ running w' cs, pass radio w msg running w' cs)
  ∨ (loop_body radio stack msg w = None
     ∧ screen (app w) = ScreenMenu
     ∧ ¬ valid_index (selected (app w))
     ∧ ∃ t, acted_on t ∧ msg = Some {| key := InputKeyOk; type := t |}).
Proof.
  destruct msg as [[k t]|]; [|left; eauto using pass].
  destruct (acted_on_dec t) as [Ht | Ht]; [|left; eauto using pass].
  destruct (screen (app w)) eqn:Hs.
  - destruct k.
    + left. destruct w as [[s i b] n]. simpl in Hs. subst s.
      eexists _, _, _. apply (pass_up radio t i b n Ht).
    + left. destruct w as [[s i b] n]. simpl in Hs. subst s.
      eexists _, _, _. apply (pass_down radio t i b n Ht).
    + left. eexists _, _, _. apply pass_side; auto.
    + left. eexists _, _, _. apply pass_side; auto.
    + destruct (decide (0 <= selected (app w)
                        ∧ is_Some (kDevices !! Z.to_nat (selected (app w)))))
        as [[H0 [p Hp]] | Hbad].
      * left. eexists _, _, _. by apply (pass_ok radio t w p).
      * right.
        assert (Hinv : ¬ valid_index (selected (app w))).
        { rewrite valid_index_iff_lookup. intros [H0 [p Hp]].
          apply Hbad. split; [exact H0 | by exists p]. }
        split; [|eauto].
        destruct Ht as [-> | ->]; unfold loop_body;
          cbv beta iota zeta delta [mbind M_bind mret M_ret get_app key type];
          by rewrite Hs, ble_start_undefined.
    + left. eexists _, _, _. by apply pass_exit.
  - left. destruct (decide (k = InputKeyBack)) as [-> | Hk].
    + eexists _, _, _. by apply pass_stop.
    + eexists _, _, _. by apply pass_advertising_other.
Qed.

Lemma loop_body_pass (msg : option InputEvent) (w w' : World) (running : bool)
    (cs : list Call) :
  loop_body radio stack msg w = Some (running, w', cs) ↔
  pass radio w msg running w' cs.
Proof.
  split; [|apply pass_sound].
  intros Hrun.
  destruct (pass_or_undefined msg w)
    as [(r & w1 & cs1 & Hpass) | (Hnone & _)]; [|congruence].
  assert (Hrun' := pass_sound _ _ _ _ _ Hpass).
  rewrite Hrun in Hrun'. by injection Hrun' as -> -> ->.
Qed.

End Cases.

(** ** More on the input state machine *)

Section MoreStateMachine.

Variable radio : nat → bool.
Variable stack : list Z.

Lemma loop_body_bad_index (t : InputType) (w : World) :
  acted_on t →
  screen (app w) = ScreenMenu →
  ¬ valid_index (selected (app w)) →
  loop_body radio stack (Some {| key := InputKeyOk; type := t |}) w = None.
Proof.
  intros Ht Hs Hbad.
  destruct Ht as [-> | ->]; unfold loop_body;
    cbv beta iota zeta delta [mbind M_bind mret M_ret get_app key type];
    by rewrite Hs, ble_start_undefined.
Qed.

(** X4.  The only pass through the loop body that reads outside the
    device table is an Ok press or repeat on the menu with the selected
    index outside [0, DeviceCount); every other pass is defined, whatever
    the state. *)
Theorem undefined_only_for_bad_index (msg : option InputEvent) (w : World) :
  loop_body radio stack msg w = None ↔
  screen (app w) = ScreenMenu
  ∧ ¬ valid_index (selected (app w))
  ∧ ∃ t, acted_on t ∧ msg = Some {| key := InputKeyOk; type := t |}.
Proof.
  split.
  - intros Hnone.
    destruct (pass_or_undefined radio stack msg w)
      as [(r & w' & cs & Hpass) | (_ & Hrest)]; [|exact Hrest].
    apply (pass_sound radio stack) in Hpass. congruence.
  - intros (Hs & Hbad & t & Ht & ->). by apply loop_body_bad_index.
Qed.

(** X5.  The loop ends in exactly one way: a Back press or repeat on the
    menu screen.  That pass changes nothing and makes no radio call, only
    a redraw. *)
Theorem loop_ends_only_by_back_on_menu (msg : option InputEvent) (w w' : World)
    (cs : list Call) :
  loop_body radio stack msg w = Some (false, w', cs) ↔
  screen (app w) = ScreenMenu
  ∧ w' = w
  ∧ cs = [Call_view_port_update]
  ∧ ∃ t, acted_on t ∧ msg = Some {| key := InputKeyBack; type := t |}.
Proof.
  rewrite loop_body_pass. split.
  - inversion 1; subst. eauto 8.
  - intros (Hs & -> & -> & t & Ht & ->). by apply pass_exit.
Qed.

(** X6.  On the advertising screen every pass is defined and the loop goes
    on; the selected index and the count of start requests never change
    there; and unless the event is a Back press or repeat the state is
    unchanged and no radio call is made. *)
Theorem advertising_screen_frame (msg : option InputEvent) (w : World) :
  screen (app w) = ScreenAdvertising →
  ∃ w' cs,
    loop_body radio stack msg w = Some (true, w', cs)
    ∧ selected (app w') = selected (app w)
    ∧ starts w' = starts w
    ∧ ((∀ t, acted_on t → msg ≠ Some {| key := InputKeyBack; type := t |}) →
       w' = w ∧ filter is_radio_call cs = []).
Proof.
  intros Hs.
  destruct (pass_or_undefined radio stack msg w)
    as [(r & w' & cs & Hpass) | (_ & Hmenu & _)]; [|congruence].
  assert (Hrun := pass_sound radio stack _ _ _ _ _ Hpass).
  inversion Hpass; subst; simpl in Hs; try congruence;
    eexists _, _; (split; [exact Hrun|]);
    (split; [reflexivity|]); (split; [reflexivity|]);
    intros Hnot; first [ by split | exfalso; eapply Hnot; eauto ].
Qed.

(** X7.  What a pass can change: the selected index only by Up or Down on
    the menu; the count of start requests only by Ok on the menu, by one. *)
Theorem pass_frame (msg : option InputEvent) (w w' : World) (running : bool)
    (cs : list Call) :
  loop_body radio stack msg w = Some (running, w', cs) →
  (selected (app w') = selected (app w)
   ∨ screen (app w) = ScreenMenu
     ∧ ∃ t, acted_on t
            ∧ (msg = Some {| key := InputKeyUp; type := t |}
               ∨ msg = Some {| key := InputKeyDown; type := t |}))
  ∧ (starts w' = starts w
     ∨ screen (app w) = ScreenMenu
       ∧ starts w' = S (starts w)
       ∧ ∃ t, acted_on t ∧ msg = Some {| key := InputKeyOk; type := t |}).
Proof.
  rewrite loop_body_pass. inversion 1; subst; simpl;
    split; eauto 8.
Qed.

(** X8.  Every profile can be selected from every other: from any index of
    the table at most [DeviceCount - 1] presses of Down lead to any other
    index of the table, each pass making only a redraw. *)
Theorem every_profile_selectable (i j : DeviceIndex) (b : bool) (n : nat) :
  valid_index i →
  valid_index j →
  ∃ k, (k < Z.to_nat DeviceCount)%nat
       ∧ event_loop radio stack (downs k) (menu_at i b n)
         = Some (true, menu_at j b n, replicate k Call_view_port_update).
Proof.
  unfold valid_index, DeviceCount. intros Hi Hj.
  exists (Z.to_nat ((j - i) mod 4)).
  split; [assert (0 <= (j - i) mod 4 < 4) by (apply Z.mod_pos_bound; lia); lia|].
  assert (i = 0 ∨ i = 1 ∨ i = 2 ∨ i = 3) as [-> | [-> | [-> | ->]]] by lia;
    assert (j = 0 ∨ j = 1 ∨ j = 2 ∨ j = 3) as [-> | [-> | [-> | ->]]] by lia;
    reflexivity.
Qed.

(** X9.  Both operations of the beacon controller leave [advertising] equal
    to what the radio does, whatever the flag and the radio were before:
    after [ble_start] both are the driver's answer, after [ble_stop] both
    are off. *)
Theorem controller_resynchronises (w : World) (live : bool) :
  valid_index (selected (app w)) →
  (∃ w' cs,
     ble_start radio stack w = Some ((), w', cs)
     ∧ beacon_live live cs = advertising (app w')
     ∧ advertising (app w') = radio (starts w))
  ∧ (∃ w' cs,
       ble_stop w = Some ((), w', cs)
       ∧ beacon_live live cs = advertising (app w')
       ∧ advertising (app w') = false).
Proof.
  intros Hi. destruct (valid_index_lookup _ Hi) as (p & Hp & _). split.
  - eexists _, _. split; [apply (ble_start_run radio stack w p (proj1 Hi) Hp)|].
    simpl. split; [|reflexivity]. by destruct (radio (starts w)).
  - eexists _, _. split; [apply ble_stop_run|]. split; reflexivity.
Qed.

End MoreStateMachine.

(** ** Whole runs *)

Lemma loop_calls_release_nothing (cs : list Call) :
  forallb is_loop_call cs = true →
  releases cs = [] ∧ omap released_by cs = [].
Proof.
  induction cs as [|c cs IH]; [done|].
  simpl. intros [Hc Hcs]%andb_true_iff. destruct (IH Hcs) as [IH1 IH2].
  unfold releases in *. destruct c; try discriminate; simpl; by rewrite ?IH1, ?IH2.
Qed.

Section MoreRuns.

Variable radio : nat → bool.
Variable stack : list Z.

Ltac run_with H := rewrite (bind_run _ _ _ _ _ _ H); cbv beta iota.

Lemma pass_calls (msg : option InputEvent) (w w' : World) (running : bool)
    (cs : list Call) :
  pass radio w msg running w' cs → forallb is_loop_call cs = true.
Proof.
  destruct 1; try reflexivity.
  unfold ble_start_calls. by destruct (radio (starts w)).
Qed.

Lemma event_loop_calls (queue : list (option InputEvent)) (w w' : World)
    (running : bool) (cs : list Call) :
  event_loop radio stack queue w = Some (running, w', cs) →
  forallb is_loop_call cs = true.
Proof.
  revert w w' running cs.
  induction queue as [|msg queue IH]; intros w w' running cs.
  - intros [= _ _ <-]. reflexivity.
  - simpl. unfold mbind, M_bind.
    destruct (loop_body radio stack msg w) as [[[r w1] cs1]|] eqn:Hstep;
      [|discriminate].
    assert (Hcs1 := pass_calls _ _ _ _ _ (proj1 (loop_body_pass _ _ _ _ _ _ _) Hstep)).
    destruct r.
    + destruct (event_loop radio stack queue w1) as [[[r2 w2] cs2]|] eqn:Hrest;
        [|discriminate].
      intros [= _ _ <-]. rewrite forallb_app, Hcs1. simpl. by eapply IH.
    + intros [= _ _ <-]. by rewrite app_nil_r.
Qed.

Lemma event_loop_exit (queue : list (option InputEvent)) (w w' : World)
    (cs : list Call) :
  event_loop radio stack queue w = Some (false, w', cs) →
  screen (app w') = ScreenMenu.
Proof.
  revert w w' cs.
  induction queue as [|msg queue IH]; intros w w' cs; [discriminate|].
  simpl. unfold mbind, M_bind.
  destruct (loop_body radio stack msg w) as [[[r w1] cs1]|] eqn:Hstep;
    [|discriminate].
  destruct r.
  - destruct (event_loop radio stack queue w1) as [[[r2 w2] cs2]|] eqn:Hrest;
      [|discriminate].
    intros [= -> <- _]. by eapply IH.
  - intros [= <- _]. by destruct (loop_body_exit radio stack _ _ _ _ Hstep) as [? ->].
Qed.

Lemma initial_consistent (n : nat) :
  consistent (app {| app := initial_app; starts := n |}).
Proof.
  split; [unfold valid_index; simpl; unfold DeviceMeta2, DeviceCount; lia|].
  simpl. split; congruence.
Qed.


(** X11.  The program only returns from the menu with [advertising]
    false, so the [ble_stop] of [app_free] never runs: the calls of a run
    that has returned are those of [app_alloc], those of the loop, and the
    six releases, with no stop request among the last. *)
Theorem teardown_never_stops (queue : list (option InputEvent)) (w0 w : World)
    (cs : list Call) :
  ray_ban_ble_app radio stack queue w0 = Some (Some 0, w, cs) →
  ∃ loop_cs,
    event_loop radio stack queue {| app := initial_app; starts := starts w0 |}
    = Some (false, w, loop_cs)
    ∧ cs = alloc_calls ++ loop_cs ++ release_calls
    ∧ screen (app w) = ScreenMenu
    ∧ advertising (app w) = false.
Proof.
  unfold ray_ban_ble_app. run_with (app_alloc_run w0).
  destruct (event_loop_consistent radio stack queue _ (initial_consistent (starts w0)))
    as (running & w1 & cs1 & Hloop & [_ Hsa] & _).
  run_with Hloop. destruct running; [discriminate|].
  assert (Hmenu := event_loop_exit _ _ _ _ Hloop).
  assert (Hidle : advertising (app w1) = false).
  { destruct (advertising (app w1)); [|reflexivity].
    destruct Hsa as [_ Hsa]. rewrite Hsa in Hmenu by reflexivity. discriminate. }
  run_with (app_free_run w1). rewrite Hidle.
  intros [= <- <-]. exists cs1.
  split; [exact Hloop|]. split; [reflexivity|]. by split.
Qed.

(** X12.  Resources are released in the reverse order of their
    acquisition: in a run that has returned, the releases are exactly the
    counterparts of the acquisitions, last acquired first released; in a
    run that still waits in the loop nothing has been released. *)
Theorem releases_mirror_acquisitions (queue : list (option InputEvent))
    (w0 : World) :
  ∃ r w cs,
    ray_ban_ble_app radio stack queue w0 = Some (r, w, cs)
    ∧ match r with
      | Some _ => releases cs = reverse (omap released_by cs)
      | None => releases cs = []
      end.
Proof.
  unfold ray_ban_ble_app. run_with (app_alloc_run w0).
  destruct (event_loop_consistent radio stack queue _ (initial_consistent (starts w0)))
    as (running & w1 & cs1 & Hloop & _).
  destruct (loop_calls_release_nothing cs1 (event_loop_calls _ _ _ _ _ Hloop))
    as [Hrel Hacq].
  run_with Hloop. destruct running.
  - eexists _, _, _. split; [reflexivity|]. cbv beta iota.
    unfold releases in *. rewrite !omap_app, Hrel. reflexivity.
  - run_with (app_free_run w1).
    eexists _, _, _. split; [reflexivity|]. cbv beta iota.
    unfold releases in *. rewrite !omap_app, Hrel, Hacq.
    destruct (advertising (app w1)); reflexivity.
Qed.


End MoreRuns.

(** X14.  A run depends neither on what the memory of the [App] held
    before [app_alloc] nor on what the stack holds where [ble_start] puts
    its array: two runs on the same queue with the same answers of the
    driver return the same result, state and calls. *)
Theorem run_ignores_uninitialised_memory (radio : nat → bool)
    (stack stack' : list Z) (queue : list (option InputEvent))
    (w0 w0' : World) :
  starts w0 = starts w0' →
  ray_ban_ble_app radio stack queue w0 = ray_ban_ble_app radio stack' queue w0'.
Proof.
  intros Hstarts.
  assert (Hbody : ∀ msg w,
             loop_body radio stack msg w = loop_body radio stack' msg w).
  { intros msg w.
    destruct (loop_body radio stack msg w) as [[[r w1] cs1]|] eqn:H1.
    - symmetry. by apply pass_sound, (loop_body_pass radio stack).
    - destruct (loop_body radio stack' msg w) as [[[r w1] cs1]|] eqn:H2;
        [|reflexivity].
      apply (loop_body_pass radio stack'), (pass_sound radio stack) in H2.
      congruence. }
  assert (Hloop : ∀ w,
             event_loop radio stack queue w = event_loop radio stack' queue w).
  { induction queue as [|msg queue' IH]; intros w; [reflexivity|].
    simpl. unfold mbind, M_bind. rewrite Hbody.
    destruct (loop_body radio stack' msg w) as [[[r w1] cs1]|]; [|reflexivity].
    destruct r; [|reflexivity]. by rewrite IH. }
  unfold ray_ban_ble_app, mbind, M_bind.
  rewrite !app_alloc_run, Hstarts, Hloop. reflexivity.
Qed.

(** X15.  From the advertising screen two Back events, the key pressed
    twice or held, stop the beacon and end the loop; whatever follows in
    the queue is not handled. *)
Theorem back_twice_leaves (radio : nat → bool) (stack : list Z)
    (t1 t2 : InputType) (w : World) (rest : list (option InputEvent)) :
  acted_on t1 →
  acted_on t2 →
  screen (app w) = ScreenAdvertising →
  event_loop radio stack
    (Some {| key := InputKeyBack; type := t1 |}
     :: Some {| key := InputKeyBack; type := t2 |} :: rest) w
  = Some (false,
          {| app := {| screen := ScreenMenu; selected := selected (app w);
                       advertising := false |};
             starts := starts w |},
          ble_stop_calls ++ [Call_view_port_update; Call_view_port_update]).
Proof.
  intros Ht1 Ht2 Hs. simpl.
  rewrite (bind_run _ _ _ _ _ _
             (loop_body_advertising_back radio stack t1 w Ht1 Hs)).
  cbv beta iota.
  set (w1 := {| app := {| screen := ScreenMenu; selected := selected (app w);
                          advertising := false |};
                starts := starts w |}).
  rewrite (bind_run _ _ _ _ _ _
             (loop_body_menu_back radio stack t2 w1 Ht2 eq_refl)).
  reflexivity.
Qed.

(** ** Drawing *)

Lemma draw_menu_defined (a : App) :
  screen a = ScreenMenu → ∃ ds, draw_callback a = Some ds.
Proof.
  intros Hs. unfold draw_callback. rewrite Hs.
  cbv -[Z.eqb selected].
  repeat (destruct (_ =? selected a); cbv -[Z.eqb selected]); eauto.
Qed.

(** X16.  [draw_callback] reads outside the device table exactly on the
    advertising screen with the selected index outside the table; on the
    menu it is defined for every index. *)
Theorem draw_undefined_iff (a : App) :
  draw_callback a = None ↔
  screen a = ScreenAdvertising ∧ ¬ valid_index (selected a).
Proof.
  split.
  - intros Hnone. destruct (screen a) eqn:Hs.
    + destruct (draw_menu_defined a Hs) as [ds Hds]. congruence.
    + split; [reflexivity|]. intros Hi.
      destruct (valid_index_lookup _ Hi) as (p & Hp & _).
      unfold draw_callback in Hnone. rewrite Hs in Hnone.
      destruct Hi as [Hi _]. apply Z.leb_le in Hi.
      rewrite Hi, Hp in Hnone. discriminate.
  - intros [Hs Hbad]. unfold draw_callback. rewrite Hs.
    destruct (0 <=? selected a) eqn:H0; [|reflexivity].
    destruct (kDevices !! Z.to_nat (selected a)) as [p|] eqn:Hp; [|reflexivity].
    exfalso. apply Hbad, valid_index_iff_lookup.
    split; [by apply Z.leb_le | eauto].
Qed.

(** X17.  The menu lists every profile of the table, in table order, ten
    rows apart from row 24: its short name at column 12 and its Company ID
    text at column 80.  When the selected index is one of the table, its
    row, and no other, gets the marker and the box, eight rows above its
    text; otherwise no row does.  The canvas is left black. *)
Theorem menu_drawing (a : App) :
  screen a = ScreenMenu →
  ∃ ds,
    draw_callback a = Some ds
    ∧ texts_at 12 ds = imap (λ i p, (24 + 10 * Z.of_nat i, short_name p)) kDevices
    ∧ texts_at 80 ds = imap (λ i p, (24 + 10 * Z.of_nat i, cid_str p)) kDevices
    ∧ texts_at 4 ds
      = (if decide (0 <= selected a < DeviceCount)
         then [(24 + 10 * selected a, ">"%string)] else [])
    ∧ drawn_boxes ds
      = (if decide (0 <= selected a < DeviceCount)
         then [16 + 10 * selected a] else [])
    ∧ colour_after ColorWhite ds = ColorBlack.
Proof.
  intros Hs. unfold draw_callback. rewrite Hs.
  change (seqZ 0 DeviceCount) with [0; 1; 2; 3].
  unfold mapM, draw_row, DeviceCount.
  destruct (decide (0 <= selected a < 4)) as [Hi | Hbad].
  - assert (selected a = 0 ∨ selected a = 1 ∨ selected a = 2 ∨ selected a = 3)
      as [-> | [-> | [-> | ->]]] by lia;
      eexists; (split; [reflexivity|]); repeat split.
  - assert (E : ∀ i, 0 <= i < 4 → (i =? selected a) = false)
      by (intros; apply Z.eqb_neq; lia).
    eexists. split.
    { cbv -[Z.eqb selected].
      rewrite (E 0), (E 1), (E 2), (E 3) by lia. reflexivity. }
    repeat split.
Qed.

(** X18.  On the advertising screen, for a selected index of the table,
    the texts drawn are the title, the long name, the Company ID text, the
    address, the settings and the footer, none cut short by its 32-byte
    buffer; the Company ID text is the hexadecimal of the two Company ID
    bytes of the payload, and the address text is the hexadecimal of the
    bytes configured as the beacon's address. *)
Theorem advertising_drawing (a : App) :
  screen a = ScreenAdvertising →
  valid_index (selected a) →
  ∃ p ds,
    kDevices !! Z.to_nat (selected a) = Some p
    ∧ draw_callback a = Some ds
    ∧ drawn_text ds
      = [ "Broadcasting..."; long_name p;
          ("Company ID: 0x" ++ fmt_02X (cid_hi p) ++ fmt_02X (cid_lo p));
          ("MAC: "
           ++ String.concat ":" (map fmt_02X (address beacon_config)));
          "100-200ms  +6dBm  All Ch"; "[Back] Stop" ]%string
    ∧ String.concat ":" (map fmt_02X (address beacon_config))
      = "5E:9A:3C:1D:87:42"%string
    ∧ drawn_boxes ds = [].
Proof.
  intros Hs Hi. unfold draw_callback. rewrite Hs.
  unfold valid_index, DeviceCount in Hi.
  assert (selected a = 0 ∨ selected a = 1 ∨ selected a = 2 ∨ selected a = 3)
    as [-> | [-> | [-> | ->]]] by lia;
    eexists _, _; (split; [reflexivity|]); (split; [reflexivity|]);
    repeat split.
Qed.

(** X19.  In every state the loop reaches the drawing is defined, so the
    screen can be redrawn at any time. *)
Theorem drawing_defined_when_reached (radio : nat → bool) (stack : list Z)
    (running : bool) (w : World) :
  reachable radio stack running w →
  ∃ ds, draw_callback (app w) = Some ds.
Proof.
  intros Hreach. apply reachable_consistent in Hreach as [Hi _].
  destruct (draw_callback (app w)) as [ds|] eqn:Hd; [eauto|].
  destruct (screen (app w)) eqn:Hs.
  - destruct (draw_menu_defined _ Hs) as [ds Hds]. congruence.
  - destruct (valid_index_lookup _ Hi) as (p & Hp & _).
    unfold draw_callback in Hd. rewrite Hs in Hd.
    destruct Hi as [Hi _]. apply Z.leb_le in Hi.
    rewrite Hi, Hp in Hd. discriminate.
Qed.

(** ** What the radio is given in a whole run *)

Section Broadcast.

Variable radio : nat → bool.
Variable stack : list Z.

Lemma pass_from_table (msg : option InputEvent) (w w' : World) (running : bool)
    (cs : list Call) :
  pass radio w msg running w' cs → Forall from_table cs.
Proof.
  destruct 1; try (repeat constructor; fail).
  assert (Hp : p ∈ kDevices) by (by eapply list_elem_of_lookup_2).
  apply Forall_app. split; [|repeat constructor].
  unfold ble_start_calls. apply Forall_app. split.
  - repeat constructor. by exists p.
  - destruct (radio (starts w)); repeat constructor.
Qed.

Lemma event_loop_from_table (queue : list (option InputEvent)) (w w' : World)
    (running : bool) (cs : list Call) :
  event_loop radio stack queue w = Some (running, w', cs) →
  Forall from_table cs.
Proof.
  revert w w' running cs.
  induction queue as [|msg queue IH]; intros w w' running cs.
  - intros [= _ _ <-]. constructor.
  - simpl. unfold mbind, M_bind.
    destruct (loop_body radio stack msg w) as [[[r w1] cs1]|] eqn:Hstep;
      [|discriminate].
    apply loop_body_pass, pass_from_table in Hstep.
    destruct r.
    + destruct (event_loop radio stack queue w1) as [[[r2 w2] cs2]|] eqn:Hrest;
        [|discriminate].
      intros [= _ _ <-]. apply Forall_app. split; [exact Hstep|]. by eapply IH.
    + intros [= _ _ <-]. by rewrite app_nil_r.
Qed.

(** X20.  Every run of the program is defined.  All it ever hands to the
    radio is the payload of a profile of the table and the one fixed
    configuration, each loaded only while the beacon is stopped; and once
    the program has returned, the beacon it started is stopped. *)
Theorem whole_run_radio_discipline (queue : list (option InputEvent))
    (w0 : World) :
  ∃ r w cs,
    ray_ban_ble_app radio stack queue w0 = Some (r, w, cs)
    ∧ Forall from_table cs
    ∧ (∀ live, reconfigures_stopped live cs = true)
    ∧ (r = Some 0 → beacon_live false cs = false).
Proof.
  destruct (program_beacon_discipline radio stack queue w0)
    as (r & w & cs & Hrun & Hquiet & Hoff).
  exists r, w, cs. split; [exact Hrun|]. split; [|by split].
  revert Hrun. unfold ray_ban_ble_app.
  rewrite (bind_run _ _ _ _ _ _ (app_alloc_run w0)). cbv beta iota.
  unfold mbind at 1, M_bind at 1.
  destruct (event_loop radio stack queue _) as [[[running w1] cs1]|] eqn:Hloop;
    [|discriminate].
  apply event_loop_from_table in Hloop.
  destruct running.
  - intros [= _ _ <-]. rewrite app_nil_r.
    repeat (apply Forall_cons; split; [exact I|]). exact Hloop.
  - rewrite (bind_run _ _ _ _ _ _ (app_free_run w1)). cbv beta iota.
    intros [= _ _ <-].
    repeat (apply Forall_cons; split; [exact I|]).
    apply Forall_app. split; [exact Hloop|].
    destruct (advertising (app w1)); repeat constructor.
Qed.

End Broadcast.

(** ** The further statements at concrete inputs *)

Lemma ok_with_index_outside_table :
  let w := menu_at 7 false 0 in
  screen (app w) = ScreenMenu
  ∧ ¬ valid_index (selected (app w))
  ∧ loop_body (λ _, true) [] (press InputKeyOk) w = None.
Proof.
  intros w.
  assert (Hs : screen (app w) = ScreenMenu) by reflexivity.
  assert (Hbad : ¬ valid_index (selected (app w)))
    by (unfold valid_index, DeviceCount; simpl; lia).
  split; [exact Hs|]. split; [exact Hbad|].
  apply (proj2 (undefined_only_for_bad_index (λ _, true) []
                  (press InputKeyOk) w)).
  split; [exact Hs|]. split; [exact Hbad|].
  exists InputTypePress. split; [left|]; reflexivity.
Defined.

Lemma back_on_fresh_menu_ends_loop :
  screen (app fresh) = ScreenMenu
  ∧ loop_body (λ _, false) [] (press InputKeyBack) fresh
    = Some (false, fresh, [Call_view_port_update]).
Proof.
  assert (Hs : screen (app fresh) = ScreenMenu) by reflexivity.
  split; [exact Hs|].
  apply (proj2 (loop_ends_only_by_back_on_menu (λ _, false) []
                  (press InputKeyBack) fresh fresh [Call_view_port_update])).
  split; [exact Hs|]. split; [reflexivity|]. split; [reflexivity|].
  exists InputTypePress. split; [left|]; reflexivity.
Defined.

Lemma up_while_advertising :
  let w := {| app := {| screen := ScreenAdvertising; selected := DeviceMeta1;
                        advertising := true |};
              starts := 3 |} in
  screen (app w) = ScreenAdvertising
  ∧ ∃ w' cs,
      loop_body (λ _, true) [] (press InputKeyUp) w = Some (true, w', cs)
      ∧ selected (app w') = DeviceMeta1.
Proof.
  intros w.
  assert (Hs : screen (app w) = ScreenAdvertising) by reflexivity.
  split; [exact Hs|].
  destruct (advertising_screen_frame (λ _, true) [] (press InputKeyUp) w Hs)
    as (w' & cs & Hrun & Hsel & _).
  exists w', cs. split; [exact Hrun | exact Hsel].
Defined.

Lemma down_on_fresh_frame :
  loop_body (λ _, true) [] (press InputKeyDown) fresh
  = Some (true, menu_at 1 false 0, [Call_view_port_update])
  ∧ (starts (menu_at 1 false 0) = starts fresh
     ∨ screen (app fresh) = ScreenMenu
       ∧ starts (menu_at 1 false 0) = S (starts fresh)
       ∧ ∃ t, acted_on t
              ∧ press InputKeyDown = Some {| key := InputKeyOk; type := t |}).
Proof.
  assert (Hrun : loop_body (λ _, true) [] (press InputKeyDown) fresh
                 = Some (true, menu_at 1 false 0, [Call_view_port_update]))
    by reflexivity.
  split; [exact Hrun|].
  exact (proj2 (pass_frame (λ _, true) [] _ _ _ _ _ Hrun)).
Defined.

Lemma snap_to_meta1_by_down :
  valid_index DeviceSnap
  ∧ valid_index DeviceMeta1
  ∧ ∃ k, (k < Z.to_nat DeviceCount)%nat
         ∧ event_loop (λ _, true) [] (downs k) (menu_at DeviceSnap false 0)
           = Some (true, menu_at DeviceMeta1 false 0,
                   replicate k Call_view_port_update).
Proof.
  assert (Hi : valid_index DeviceSnap) by (vm_compute; split; congruence).
  assert (Hj : valid_index DeviceMeta1) by (vm_compute; split; congruence).
  split; [exact Hi|]. split; [exact Hj|].
  exact (every_profile_selectable (λ _, true) [] DeviceSnap DeviceMeta1
           false 0%nat Hi Hj).
Defined.

Lemma controller_resynchronises_on_fresh :
  valid_index (selected (app fresh))
  ∧ ∃ w' cs,
      ble_start (λ _, false) [] fresh = Some ((), w', cs)
      ∧ beacon_live true cs = advertising (app w')
      ∧ advertising (app w') = false.
Proof.
  assert (Hi : valid_index (selected (app fresh)))
    by (vm_compute; split; congruence).
  split; [exact Hi|].
  exact (proj1 (controller_resynchronises (λ _, false) [] fresh true Hi)).
Defined.

Lemma teardown_after_advertising_once :
  let queue := [press InputKeyOk; press InputKeyBack; press InputKeyBack] in
  ∃ w cs,
    ray_ban_ble_app (λ _, true) [] queue fresh = Some (Some 0, w, cs)
    ∧ ∃ loop_cs,
        cs = alloc_calls ++ loop_cs ++ release_calls
        ∧ advertising (app w) = false.
Proof.
  intros queue.
  destruct (ray_ban_ble_app (λ _, true) [] queue fresh) as [[[r w] cs]|] eqn:Hrun;
    [|vm_compute in Hrun; discriminate].
  assert (Hr : r = Some 0) by (vm_compute in Hrun; congruence).
  subst r. exists w, cs. split; [reflexivity|].
  destruct (teardown_never_stops (λ _, true) [] queue fresh w cs Hrun)
    as (loop_cs & _ & Hcs & _ & Hidle).
  exists loop_cs. split; [exact Hcs | exact Hidle].
Defined.

Lemma run_ignores_uninitialised_memory_sample :
  let w0' := {| app := {| screen := ScreenAdvertising; selected := 9;
                          advertising := true |};
                starts := 0 |} in
  starts fresh = starts w0'
  ∧ ray_ban_ble_app (λ _, true) [] [press InputKeyOk] fresh
    = ray_ban_ble_app (λ _, true) [1; 2; 3] [press InputKeyOk] w0'.
Proof.
  intros w0'.
  assert (Hstarts : starts fresh = starts w0') by reflexivity.
  split; [exact Hstarts|].
  exact (run_ignores_uninitialised_memory (λ _, true) [] [1; 2; 3]
           [press InputKeyOk] fresh w0' Hstarts).
Defined.

Lemma back_held_while_advertising :
  let w := {| app := {| screen := ScreenAdvertising; selected := DeviceSnap;
                        advertising := true |};
              starts := 1 |} in
  acted_on InputTypePress
  ∧ acted_on InputTypeRepeat
  ∧ screen (app w) = ScreenAdvertising
  ∧ event_loop (λ _, true) []
      [ Some {| key := InputKeyBack; type := InputTypePress |};
        Some {| key := InputKeyBack; type := InputTypeRepeat |};
        press InputKeyOk ] w
    = Some (false, menu_at DeviceSnap false 1,
            ble_stop_calls ++ [Call_view_port_update; Call_view_port_update]).
Proof.
  intros w.
  assert (H1 : acted_on InputTypePress) by (left; reflexivity).
  assert (H2 : acted_on InputTypeRepeat) by (right; reflexivity).
  assert (Hs : screen (app w) = ScreenAdvertising) by reflexivity.
  split; [exact H1|]. split; [exact H2|]. split; [exact Hs|].
  exact (back_twice_leaves (λ _, true) [] InputTypePress InputTypeRepeat w
           [press InputKeyOk] H1 H2 Hs).
Defined.

Lemma draw_with_index_outside_table :
  let a := {| screen := ScreenAdvertising; selected := 4; advertising := true |} in
  screen a = ScreenAdvertising
  ∧ ¬ valid_index (selected a)
  ∧ draw_callback a = None.
Proof.
  intros a.
  assert (Hs : screen a = ScreenAdvertising) by reflexivity.
  assert (Hbad : ¬ valid_index (selected a))
    by (unfold valid_index, DeviceCount; simpl; lia).
  split; [exact Hs|]. split; [exact Hbad|].
  exact (proj2 (draw_undefined_iff a) (conj Hs Hbad)).
Defined.

Lemma menu_drawing_luxottica_selected :
  let a := {| screen := ScreenMenu; selected := DeviceLuxottica;
              advertising := false |} in
  screen a = ScreenMenu
  ∧ ∃ ds, draw_callback a = Some ds
          ∧ texts_at 4 ds = [(44, ">"%string)]
          ∧ drawn_boxes ds = [36].
Proof.
  intros a.
  assert (Hs : screen a = ScreenMenu) by reflexivity.
  split; [exact Hs|].
  destruct (menu_drawing a Hs) as (ds & Hds & _ & _ & Hmark & Hbox & _).
  exists ds. split; [exact Hds|]. split; [exact Hmark | exact Hbox].
Defined.

Lemma advertising_drawing_meta2 :
  let a := {| screen := ScreenAdvertising; selected := DeviceMeta2;
              advertising := true |} in
  screen a = ScreenAdvertising
  ∧ valid_index (selected a)
  ∧ ∃ ds, draw_callback a = Some ds
          ∧ drawn_text ds
            = [ "Broadcasting..."; "Meta Platforms Tech"; "Company ID: 0x058E";
                "MAC: 5E:9A:3C:1D:87:42"; "100-200ms  +6dBm  All Ch";
                "[Back] Stop" ]%string.
Proof.
  intros a.
  assert (Hs : screen a = ScreenAdvertising) by reflexivity.
  assert (Hi : valid_index (selected a)) by (vm_compute; split; congruence).
  split; [exact Hs|]. split; [exact Hi|].
  destruct (advertising_drawing a Hs Hi) as (p & ds & Hp & Hds & Htext & _).
  exists ds. split; [exact Hds|].
  injection Hp as <-. exact Htext.
Defined.

Lemma drawing_defined_after_ok :
  let w := {| app := {| screen := ScreenAdvertising; selected := DeviceMeta2;
                        advertising := true |};
              starts := 1 |} in
  reachable (λ _, true) [] true w
  ∧ ∃ ds, draw_callback (app w) = Some ds.
Proof.
  intros w.
  assert (Hreach : reachable (λ _, true) [] true w).
  { eapply (reach_iter _ _ fresh w (press InputKeyOk)).
    - eapply (reach_alloc _ _ fresh). reflexivity.
    - vm_compute. reflexivity. }
  split; [exact Hreach|].
  exact (drawing_defined_when_reached (λ _, true) [] true w Hreach).
Defined.
